(** * Shallow embedding of the OAuth proxy MCP resource server and client

    Modelled sources:
    - [src/mcp_resource_server/token_verifier.py]: [IntrospectionTokenVerifier]
    - [src/mcp_resource_server/routes/oauth.py]: [register_client],
      [authorize], [token_proxy] and the credentials file
    - [src/mcp_resource_server/routes/tools.py]: the tools' e-mail check and
      the location search's parameters
    - [src/mcp_client/callback.py], [src/mcp_client/auth.py]: the callback
      listener, the coordinator's [callback_handler] and the provider's
      server URL ([src/mcp_client/settings.py]).

    Python values coming from JSON are modelled by [json]; a Python dict read
    from JSON is an association list with the dict's insertion order.
    Exceptions are constructors of [exn]; network effects are recorded in an
    explicit trace so that "no network call was attempted" is a statement on
    the trace. *)

From Stdlib Require Import String Ascii List ZArith Bool Lia.
Import ListNotations.
Open Scope string_scope.
Set Warnings "-register-all".

(** ** JSON values and the Python operations the code applies to them *)

Inductive json : Type :=
| JNull
| JBool (b : bool)
| JNum (n : Z)
| JStr (s : string)
| JArr (l : list json)
| JObj (kvs : list (string * json)).

(** Python truthiness ([bool(x)]) of a JSON-decoded value. *)
Definition truthy (j : json) : bool :=
  match j with
  | JNull => false
  | JBool b => b
  | JNum n => negb (Z.eqb n 0)
  | JStr s => negb (String.eqb s "")
  | JArr l => match l with [] => false | _ => true end
  | JObj kvs => match kvs with [] => false | _ => true end
  end.

Inductive exn : Type :=
| ValueError
| AttributeError
| KeyError
| TypeError
| IndexError
| JSONDecodeError
| HTTPStatusError
| TransportError
| ValidationError.

Inductive outcome (A : Type) : Type :=
| Ok (a : A)
| Exc (e : exn).
Arguments Ok {A} a.
Arguments Exc {A} e.

Fixpoint assoc {V} (k : string) (kvs : list (string * V)) : option V :=
  match kvs with
  | [] => None
  | (k', v) :: rest => if String.eqb k k' then Some v else assoc k rest
  end.

Definition has_key {V} (k : string) (kvs : list (string * V)) : bool :=
  match assoc k kvs with Some _ => true | None => false end.

(** [d.get(k, default)]: only dicts have [.get]. *)
Definition py_get (d : json) (k : string) (default : json) : outcome json :=
  match d with
  | JObj kvs => match assoc k kvs with Some v => Ok v | None => Ok default end
  | _ => Exc AttributeError
  end.

(** [d[k]] *)
Definition py_getitem (d : json) (k : string) : outcome json :=
  match d with
  | JObj kvs => match assoc k kvs with Some v => Ok v | None => Exc KeyError end
  | _ => Exc TypeError
  end.

Definition remove_key {V} (k : string) (kvs : list (string * V)) :
    list (string * V) :=
  filter (fun kv => negb (String.eqb k (fst kv))) kvs.

(** [del d[k]] *)
Definition py_del (d : json) (k : string) : outcome json :=
  match d with
  | JObj kvs => if has_key k kvs then Ok (JObj (remove_key k kvs)) else Exc KeyError
  | _ => Exc TypeError
  end.

(** [s.split(sep)] for a one-character separator, with Python's semantics:
    ["".split("&") = [""]], empty fields are kept. *)
Fixpoint split_on (sep : ascii) (s : string) : list string :=
  match s with
  | EmptyString => [""]
  | String c rest =>
      let parts := split_on sep rest in
      if Ascii.eqb c sep then "" :: parts
      else match parts with
           | p :: ps => String c p :: ps
           | [] => [String c ""]
           end
  end.

(** [x.split(" ")] applied to a JSON value: only strings have [.split]. *)
Definition py_split_space (j : json) : outcome (list string) :=
  match j with
  | JStr s => Ok (split_on " "%char s)
  | _ => Exc AttributeError
  end.

(** [s.startswith((p1, p2, ...))] *)
Definition startswith_any (s : string) (ps : list string) : bool :=
  existsb (fun p => String.prefix p s) ps.

(** ** Network effects *)

Record http_response : Type := {
  status_code : Z;
  (** [None]: the body is not JSON, [response.json()] raises *)
  body_json : option json
}.

Inductive net_call : Type :=
| Post (url : string) (form : list (string * json))
| Get (url : string) (authorization : string).

(** A computation over a state [S] that may raise. *)
Definition ST (S A : Type) : Type := S -> outcome A * S.

Definition ret {S A} (a : A) : ST S A := fun st => (Ok a, st).
Definition throw {S A} (e : exn) : ST S A := fun st => (Exc e, st).
Definition bind {S A B} (m : ST S A) (f : A -> ST S B) : ST S B :=
  fun st => match m st with
            | (Ok a, st') => f a st'
            | (Exc e, st') => (Exc e, st')
            end.
Definition lift {S A} (o : outcome A) : ST S A :=
  fun st => (o, st).
(** [try: ... except Exception as e: handler(e)] *)
Definition try_catch {S A} (m : ST S A) (h : exn -> ST S A) : ST S A :=
  fun st => match m st with
            | (Ok a, st') => (Ok a, st')
            | (Exc e, st') => h e st'
            end.

Notation "x <- m ;; k" := (bind m (fun x => k))
  (at level 61, m at next level, right associativity).

(** The resource server's computations record the network calls they
    attempt, in order. *)
Definition M (A : Type) : Type := ST (list net_call) A.

(** The answers the outside world gives; [None] is a transport failure
    (connection refused, timeout, TLS error), raised by httpx. *)
Record network : Type := {
  on_post : string -> list (string * json) -> option http_response;
  on_get : string -> string -> option http_response
}.

Definition http_post (net : network) (url : string) (form : list (string * json)) :
    M http_response :=
  fun tr => let tr' := app tr [Post url form] in
            match on_post net url form with
            | Some r => (Ok r, tr')
            | None => (Exc TransportError, tr')
            end.

Definition http_get (net : network) (url : string) (auth : string) :
    M http_response :=
  fun tr => let tr' := app tr [Get url auth] in
            match on_get net url auth with
            | Some r => (Ok r, tr')
            | None => (Exc TransportError, tr')
            end.

(** [response.json()] *)
Definition resp_json (r : http_response) : outcome json :=
  match body_json r with Some j => Ok j | None => Exc JSONDecodeError end.

(** ** [IntrospectionTokenVerifier] (token_verifier.py) *)

Module Verifier.

(** The two pieces of the [mcp] library the verifier relies on, which are
    not part of this repository:
    - [check_resource_allowed requested configured] from
      [mcp.shared.auth_utils], on two strings; [None] when [urlparse]
      raises on one of them (e.g. a malformed IPv6 literal);
    - [accepts]: whether pydantic's validation of the
      [AccessTokenWithClaims] model accepts the given field values
      (constructing the model raises [ValidationError] otherwise). *)
Record access_token : Type := {
  tok_token : string;
  tok_client_id : json;
  tok_scopes : list string;
  tok_expires_at : json;
  tok_resource : json;
  tok_claims : json
}.

Record mcp_lib : Type := {
  check_resource_allowed : string -> string -> option bool;
  accepts : access_token -> bool
}.

(** The verifier object's attributes. [client_id] and [client_secret] are
    [None] ([JNull]) until [/register] or [load_client_credentials] sets
    them; they hold whatever the registration JSON carried. *)
Record verifier : Type := {
  introspection_endpoint : string;
  userinfo_endpoint : string;
  server_url : string;
  validate_resource : bool;
  resource_url : string;
  client_id : json;
  client_secret : json
}.

Definition safe_prefixes : list string :=
  ["https://"; "http://localhost"; "http://127.0.0.1"].

(** [_is_valid_resource(resource)].  [check_resource_allowed] runs
    [urlparse] on [resource]: a falsy non-string is coerced to the empty
    bytes string and never matches the [str] scheme of [resource_url]; a
    truthy non-string has no [.decode] and raises. *)
Definition is_valid_resource (lib : mcp_lib) (v : verifier) (r : json) :
    outcome bool :=
  if String.eqb (resource_url v) "" then Ok false
  else match r with
       | JStr s =>
           match check_resource_allowed lib (resource_url v) s with
           | Some b => Ok b
           | None => Exc ValueError
           end
       | _ => if truthy r then Exc AttributeError else Ok false
       end.

(** [for audience in aud: if self._is_valid_resource(audience): return True];
    [return False] *)
Fixpoint any_valid_resource (lib : mcp_lib) (v : verifier) (l : list json) :
    outcome bool :=
  match l with
  | [] => Ok false
  | a :: rest =>
      match is_valid_resource lib v a with
      | Ok true => Ok true
      | Ok false => any_valid_resource lib v rest
      | Exc e => Exc e
      end
  end.

(** [_validate_resource(token_data)] *)
Definition validate_resource_fn (lib : mcp_lib) (v : verifier) (data : json) :
    outcome bool :=
  if String.eqb (server_url v) "" || String.eqb (resource_url v) "" then Ok false
  else match py_get data "aud" JNull with
       | Exc e => Exc e
       | Ok (JArr l) => any_valid_resource lib v l
       | Ok aud => if truthy aud then is_valid_resource lib v aud else Ok false
       end.

(** [data={"token": token, "client_id": ..., "client_secret": ...}] *)
Definition introspection_form (v : verifier) (token : string) :
    list (string * json) :=
  [("token", JStr token); ("client_id", client_id v);
   ("client_secret", client_secret v)].

(** The body of the [try] block of [verify_token]. *)
Definition introspect (lib : mcp_lib) (v : verifier) (net : network)
    (token : string) : M (option access_token) :=
  response <- http_post net (introspection_endpoint v)
                (introspection_form v token) ;;
  if negb (Z.eqb (status_code response) 200) then ret None else
  data <- lift (resp_json response) ;;
  active <- lift (py_get data "active" (JBool false)) ;;
  if negb (truthy active) then ret None else
  ok <- (if validate_resource v then lift (validate_resource_fn lib v data)
         else ret true) ;;
  if negb ok then ret None else
  userInfo <- http_get net (userinfo_endpoint v) ("Bearer " ++ token) ;;
  cid <- lift (py_get data "client_id" (client_id v)) ;;
  scope <- lift (py_get data "scope" JNull) ;;
  scopes <- lift (py_split_space scope) ;;
  exp <- lift (py_get data "exp" JNull) ;;
  aud <- lift (py_get data "aud" JNull) ;;
  claims <- lift (resp_json userInfo) ;;
  let t := {| tok_token := token; tok_client_id := cid; tok_scopes := scopes;
              tok_expires_at := exp; tok_resource := aud; tok_claims := claims |} in
  if accepts lib t then ret (Some t) else throw ValidationError.

(** [verify_token(token)].  Creating the [httpx.AsyncClient] does not raise
    and makes no request, so it is not modelled. *)
Definition verify_token (lib : mcp_lib) (v : verifier) (net : network)
    (token : string) : M (option access_token) :=
  if negb (truthy (client_id v)) || negb (truthy (client_secret v))
  then throw ValueError
  else if negb (startswith_any (introspection_endpoint v) safe_prefixes)
  then ret None
  else try_catch (introspect lib v net token) (fun _ => ret None).

(** Running [verify_token] from an empty trace. *)
Definition run_verify lib v net token := verify_token lib v net token [].

(** The same verifier with strict resource validation switched off. *)
Definition lenient (v : verifier) : verifier :=
  {| introspection_endpoint := introspection_endpoint v;
     userinfo_endpoint := userinfo_endpoint v;
     server_url := server_url v;
     validate_resource := false;
     resource_url := resource_url v;
     client_id := client_id v;
     client_secret := client_secret v |}.

Definition credentials_set (v : verifier) : bool :=
  truthy (client_id v) && truthy (client_secret v).

(** An [aud] value carries an entry that hierarchically matches the
    configured resource URL (the matching itself is the library's
    [check_resource_allowed]). *)
Definition aud_matches (lib : mcp_lib) (v : verifier) (aud : json) : Prop :=
  match aud with
  | JStr s => check_resource_allowed lib (resource_url v) s = Some true
  | JArr l => exists s, In (JStr s) l /\
                check_resource_allowed lib (resource_url v) s = Some true
  | _ => False
  end.

(** The [aud] value reaches a matching entry when [_validate_resource]
    scans it: a non-empty matching string, or a list whose entries before a
    matching string are checked without a match and without raising. *)
Definition aud_first_match (lib : mcp_lib) (v : verifier) (aud : option json) : Prop :=
  (exists s, aud = Some (JStr s) /\ s <> "" /\
     check_resource_allowed lib (resource_url v) s = Some true) \/
  (exists pre s post, aud = Some (JArr (pre ++ JStr s :: post)) /\
     Forall (fun a => is_valid_resource lib v a = Ok false) pre /\
     check_resource_allowed lib (resource_url v) s = Some true).

End Verifier.

(** ** URLs as the spec describes them

    Used to state which introspection endpoints the spec calls unsafe: the
    scheme, and for [http] the host, as [urllib.parse] would split them. *)
Module Url.

(** The text before the first ["://"]. *)
Fixpoint url_scheme (s : string) : option string :=
  if String.prefix "://" s then Some ""
  else match s with
       | EmptyString => None
       | String c r => option_map (String c) (url_scheme r)
       end.

(** The text after the first ["://"]. *)
Fixpoint after_scheme (s : string) : string :=
  if String.prefix "://" s then substring 3 (String.length s) s
  else match s with
       | EmptyString => EmptyString
       | String _ r => after_scheme r
       end.

Fixpoint take_until (stop : ascii -> bool) (s : string) : string :=
  match s with
  | EmptyString => EmptyString
  | String c r => if stop c then EmptyString else String c (take_until stop r)
  end.

(** The text after the last ['@'] (the whole string if there is none). *)
Definition is_one_of (cs : string) (c : ascii) : bool :=
  existsb (Ascii.eqb c) (list_ascii_of_string cs).

Fixpoint after_last_at (s : string) : string :=
  match s with
  | EmptyString => EmptyString
  | String c r =>
      if existsb (Ascii.eqb "@"%char) (list_ascii_of_string r) then after_last_at r
      else if Ascii.eqb c "@"%char then r
      else s
  end.

(** The host of a URL: the authority without user info and port. *)
Definition url_host (s : string) : string :=
  let authority := take_until (is_one_of "/?#") (after_scheme s) in
  let hostport := after_last_at authority in
  if String.prefix "[" hostport then
    take_until (Ascii.eqb "]"%char) hostport ++ "]"
  else take_until (Ascii.eqb ":"%char) hostport.

Definition is_loopback_host (h : string) : bool :=
  String.eqb h "localhost" || String.eqb h "[::1]" ||
  (String.prefix "127." h &&
   forallb (is_one_of "0123456789.") (list_ascii_of_string h)).

Definition http_to_loopback (url : string) : bool :=
  match url_scheme url with
  | Some sch => String.eqb sch "http" && is_loopback_host (url_host url)
  | None => false
  end.

End Url.

(** ** The OAuth routes (routes/oauth.py) *)

Module Routes.
Import Verifier.

Inductive upstream_call : Type :=
| RegisterPost (url : string) (client_metadata : json)
| TokenPost (url : string) (form : list (string * json)).

(** The authorization server's answers to [/oidc/register] and
    [/oauth/token]; [None] is a transport failure. *)
Record upstream : Type := {
  on_register : json -> option http_response;
  on_token : list (string * json) -> option http_response
}.

(** What the routes read and write: the credentials file (as the JSON it
    holds; [None] when it does not exist), the shared token verifier, and
    the calls made to the authorization server. *)
Record route_state : Type := {
  cred_file : option json;
  verifier_of : verifier;
  upstream_log : list upstream_call
}.

Inductive route_response : Type :=
| JSONResp (status : Z) (body : json)
| ErrorResp (status : Z) (e : exn).

Definition RM (A : Type) : Type := ST route_state A.

(** The verifier with [client_id] and [client_secret] replaced. *)
Definition with_credentials (v : verifier) (cid csec : json) : verifier :=
  {| introspection_endpoint := introspection_endpoint v;
     userinfo_endpoint := userinfo_endpoint v;
     server_url := server_url v;
     validate_resource := validate_resource v;
     resource_url := resource_url v;
     client_id := cid;
     client_secret := csec |}.

(** [load_credentials()] *)
Definition load_credentials : RM json :=
  fun st => (Ok (match cred_file st with Some j => j | None => JObj [] end), st).

(** [save_credentials(data)]: [json.dump] serialises the dict as it is at
    this point. *)
Definition save_credentials (data : json) : RM unit :=
  fun st => (Ok tt, {| cred_file := Some data; verifier_of := verifier_of st;
                       upstream_log := upstream_log st |}).

Definition set_verifier_client_id (j : json) : RM unit :=
  fun st => let v := verifier_of st in
    (Ok tt, {| cred_file := cred_file st;
               verifier_of := {| introspection_endpoint := introspection_endpoint v;
                                 userinfo_endpoint := userinfo_endpoint v;
                                 server_url := server_url v;
                                 validate_resource := validate_resource v;
                                 resource_url := resource_url v;
                                 client_id := j;
                                 client_secret := client_secret v |};
               upstream_log := upstream_log st |}).

Definition set_verifier_client_secret (j : json) : RM unit :=
  fun st => let v := verifier_of st in
    (Ok tt, {| cred_file := cred_file st;
               verifier_of := {| introspection_endpoint := introspection_endpoint v;
                                 userinfo_endpoint := userinfo_endpoint v;
                                 server_url := server_url v;
                                 validate_resource := validate_resource v;
                                 resource_url := resource_url v;
                                 client_id := client_id v;
                                 client_secret := j |};
               upstream_log := upstream_log st |}).

Definition log_call (c : upstream_call) : RM unit :=
  fun st => (Ok tt, {| cred_file := cred_file st; verifier_of := verifier_of st;
                       upstream_log := app (upstream_log st) [c] |}).

Definition post_register (up : upstream) (url : string) (meta : json) :
    RM http_response :=
  _ <- log_call (RegisterPost url meta) ;;
  match on_register up meta with
  | Some r => ret r
  | None => throw TransportError
  end.

(** [response.raise_for_status()]: httpx raises on every non-2xx status. *)
Definition raise_for_status (r : http_response) : outcome unit :=
  if (200 <=? status_code r)%Z && (status_code r <? 300)%Z then Ok tt
  else Exc HTTPStatusError.

(** [register_client(request)]; [request_json] is [await request.json()]
    ([None] when the body is not JSON). *)
Definition register_client (gravitee_am_url : string) (up : upstream)
    (request_json : option json) : RM route_response :=
  try_catch (
    data <- load_credentials ;;
    data <- (if negb (truthy data) then
               client_metadata <- lift (match request_json with
                                        | Some j => Ok j
                                        | None => Exc JSONDecodeError
                                        end) ;;
               response <- post_register up (gravitee_am_url ++ "/oidc/register")
                             client_metadata ;;
               _ <- lift (raise_for_status response) ;;
               data <- lift (resp_json response) ;;
               data <- lift (py_del data "registration_access_token") ;;
               data <- lift (py_del data "registration_client_uri") ;;
               _ <- save_credentials data ;;
               ret data
             else ret data) ;;
    cid <- lift (py_getitem data "client_id") ;;
    _ <- set_verifier_client_id cid ;;
    csec <- lift (py_getitem data "client_secret") ;;
    _ <- set_verifier_client_secret csec ;;
    data <- lift (py_del data "client_secret") ;;
    ret (JSONResp 200 data))
  (fun e => ret (ErrorResp 400 e)).

(** [form_dict[k] = v] on a dict: an existing key keeps its position. *)
Fixpoint dict_set (k : string) (v : json) (d : list (string * json)) :
    list (string * json) :=
  match d with
  | [] => [(k, v)]
  | (k', v') :: rest =>
      if String.eqb k k' then (k', v) :: rest else (k', v') :: dict_set k v rest
  end.

(** [item.split("=", 1)] for an item that contains ["="]. *)
Fixpoint split_first_eq (s : string) : string * string :=
  match s with
  | EmptyString => ("", "")
  | String c r =>
      if Ascii.eqb c "="%char then ("", r)
      else let (k, v) := split_first_eq r in (String c k, v)
  end.

Definition contains_eq (s : string) : bool :=
  existsb (Ascii.eqb "="%char) (list_ascii_of_string s).

(** [dict(item.split("=", 1) for item in body_str.split("&") if "=" in item)] *)
Definition parse_form (body_str : string) : list (string * json) :=
  fold_left (fun d item =>
               if contains_eq item then
                 let (k, v) := split_first_eq item in dict_set k (JStr v) d
               else d)
            (split_on "&"%char body_str) [].

(** [form_dict.get("client_id") == token_verifier.client_id], the left side
    being a string or [None]. *)
Definition form_value_eq (a : option json) (b : json) : bool :=
  match a, b with
  | None, JNull => true
  | Some (JStr s), JStr t => String.eqb s t
  | _, _ => false
  end.

(** The dict [token_proxy] re-encodes as
    ["&".join(f"{k}={v}" for k, v in form_dict.items())] and forwards. *)
Definition proxy_form (v : verifier) (body_str : string) : list (string * json) :=
  let form_dict := parse_form body_str in
  if form_value_eq (assoc "client_id" form_dict) (client_id v)
  then dict_set "client_secret" (client_secret v) form_dict
  else remove_key "client_secret" form_dict.

(** [token_proxy(request)]; [body_str] is [None] when the body does not
    decode as UTF-8. *)
Definition token_proxy (gravitee_am_url : string) (up : upstream)
    (body_str : option string) : RM route_response :=
  fun st =>
    match body_str with
    | None => (Ok (ErrorResp 400 ValueError), st)
    | Some b =>
        let fwd := proxy_form (verifier_of st) b in
        let st' := snd (log_call (TokenPost (gravitee_am_url ++ "/oauth/token") fwd) st) in
        match on_token up fwd with
        | None => (Ok (ErrorResp 400 TransportError), st')
        | Some r =>
            match raise_for_status r with
            | Exc _ => (Ok (ErrorResp (status_code r) HTTPStatusError), st')
            | Ok _ =>
                match body_json r with
                | Some j => (Ok (JSONResp 200 j), st')
                | None => (Ok (ErrorResp 400 JSONDecodeError), st')
                end
            end
        end
    end.

End Routes.

(** ** The OAuth callback listener (callback.py) and coordinator (auth.py) *)

Module Callback.

(** [self.callback_data], the dict shared by the handler thread and the
    waiting flow. *)
Record callback_data : Type := {
  authorization_code : option string;
  cb_state : option string;
  error : option string
}.

Definition empty_data : callback_data :=
  {| authorization_code := None; cb_state := None; error := None |}.

(** A request's query as [parse_qs] returns it: each present key with the
    list of its non-blank values. *)
Definition query : Type := list (string * list string).

(** [parse_qs] drops blank values and only lists keys that keep a value. *)
Definition wf_query (q : query) : Prop :=
  Forall (fun kv => snd kv <> [] /\ Forall (fun x => x <> "") (snd kv)) q.

Definition set_code (cd : callback_data) (c : string) : callback_data :=
  {| authorization_code := Some c; cb_state := cb_state cd; error := error cd |}.
Definition set_state (cd : callback_data) (s : option string) : callback_data :=
  {| authorization_code := authorization_code cd; cb_state := s; error := error cd |}.
Definition set_error (cd : callback_data) (e : string) : callback_data :=
  {| authorization_code := authorization_code cd; cb_state := cb_state cd;
     error := Some e |}.

(** [CallbackHandler.do_GET]: the new contents of the shared dict and the
    status answered ([None] when the handler raises [IndexError] and the
    connection is closed without an answer). *)
Definition do_GET (cd : callback_data) (q : query) : callback_data * option Z :=
  match assoc "code" q with
  | Some [] => (cd, None)
  | Some (c :: _) =>
      let cd1 := set_code cd c in
      match assoc "state" q with
      | None => (set_state cd1 None, Some 200%Z)
      | Some (s :: _) => (set_state cd1 (Some s), Some 200%Z)
      | Some [] => (cd1, None)
      end
  | None =>
      match assoc "error" q with
      | Some (e :: _) => (set_error cd e, Some 400%Z)
      | Some [] => (cd, None)
      | None => (cd, Some 404%Z)
      end
  end.

(** The requests the server thread handles, in order, during one
    [time.sleep(0.1)] of the waiting loop. *)
Definition handle_batch (cd : callback_data) (reqs : list query) : callback_data :=
  fold_left (fun cd q => fst (do_GET cd q)) reqs cd.

Definition opt_truthy (o : option string) : bool :=
  match o with Some s => negb (String.eqb s "") | None => false end.

Inductive wait_result : Type :=
| WCode (code : string)
| WError (err : string)
| WTimeout.

(** [wait_for_callback(timeout)]: [polls] is the number of times the loop
    condition [time.time() - start < timeout] holds; [arrivals] lists, per
    iteration, the requests handled while the loop sleeps. *)
Fixpoint wait_for_callback (polls : nat) (cd : callback_data)
    (arrivals : list (list query)) : wait_result * callback_data :=
  match polls with
  | O => (WTimeout, cd)
  | S n =>
      if opt_truthy (authorization_code cd) then
        (WCode (match authorization_code cd with Some c => c | None => "" end), cd)
      else if opt_truthy (error cd) then
        (WError (match error cd with Some e => e | None => "" end), cd)
      else wait_for_callback n (handle_batch cd (hd [] arrivals)) (tl arrivals)
  end.

(** The [CallbackServer]: whether its server thread still listens, and its
    shared dict. *)
Record listener : Type := {
  running : bool;
  data : callback_data
}.

(** [stop()] *)
Definition stop (l : listener) : listener :=
  {| running := false; data := data l |}.

Inductive flow_error : Type :=
| OAuthException (msg : string)
| TimeoutError (msg : string).

(** [callback_handler()] of [create_oauth_provider]:
    [code = wait_for_callback(); state = get_state(); stop(); return code, state] *)
Definition callback_handler (polls : nat) (l : listener)
    (arrivals : list (list query)) :
    (string * option string + flow_error) * listener :=
  let (r, cd) := wait_for_callback polls (data l) arrivals in
  let l' := {| running := running l; data := cd |} in
  match r with
  | WCode c => (inl (c, cb_state cd), stop l')
  | WError e => (inr (OAuthException ("OAuth error: " ++ e)), l')
  | WTimeout => (inr (TimeoutError "Timeout waiting for OAuth callback"), l')
  end.

(** A request that neither branch of [do_GET] recognizes: no [code] and no
    [error] parameter, answered with 404. *)
Definition unrecognized (q : query) : bool :=
  match assoc "code" q, assoc "error" q with
  | None, None => true
  | _, _ => false
  end.

(** The value [self.callback_data["authorization_code"]] holds after a
    sequence of requests, starting from [acc]. *)
Fixpoint last_code_from (acc : option string) (reqs : list query) : option string :=
  match reqs with
  | [] => acc
  | q :: rest =>
      last_code_from (match assoc "code" q with Some (c :: _) => Some c | _ => acc end) rest
  end.

Definition last_code (reqs : list query) : option string := last_code_from None reqs.

(** The value [self.callback_data["error"]] holds after a sequence of
    requests, starting from [acc]: only requests without [code] reach the
    [elif "error" in query_params] branch. *)
Fixpoint last_error_from (acc : option string) (reqs : list query) : option string :=
  match reqs with
  | [] => acc
  | q :: rest =>
      last_error_from
        (match assoc "code" q with
         | Some _ => acc
         | None => match assoc "error" q with Some (e :: _) => Some e | _ => acc end
         end) rest
  end.

Definition last_error (reqs : list query) : option string := last_error_from None reqs.

(** Queries of concrete callback requests. *)
Definition q_code (c : string) : query := [("code", [c])].
Definition q_error (e : string) : query := [("error", [e])].
Definition q_code_error (c e : string) : query := [("code", [c]); ("error", [e])].
Definition q_other : query := [("foo", ["bar"])].

(** The listener as [create_oauth_provider] leaves it after [start()]. *)
Definition started : listener := {| running := true; data := empty_data |}.

End Callback.

(** ** Concrete configurations *)

Module Fixtures.
Import Verifier.

(** A library instance whose [check_resource_allowed] is string equality
    (on the inputs used below the library's own function also returns
    [True] exactly for equal strings) and whose token model accepts every
    field combination. *)
Definition lib_eq : mcp_lib :=
  {| check_resource_allowed := fun r c => Some (String.eqb r c);
     accepts := fun _ => true |}.

Definition mk_verifier (endpoint : string) (strict : bool) (cid csec : json) :
    verifier :=
  {| introspection_endpoint := endpoint;
     userinfo_endpoint := "http://localhost:8083/oidc/userinfo";
     server_url := "http://localhost:8001";
     validate_resource := strict;
     resource_url := "http://localhost:8001";
     client_id := cid;
     client_secret := csec |}.

Definition v_strict : verifier :=
  mk_verifier "http://localhost:8083/oauth/introspect" true
    (JStr "client-1") (JStr "secret-1").

(** An [http] endpoint whose host only starts with [localhost]. *)
Definition v_evil : verifier :=
  mk_verifier "http://localhost.evil.com/oauth/introspect" false
    (JStr "client-1") (JStr "secret-1").

Definition v_ftp (cid csec : json) : verifier :=
  mk_verifier "ftp://am.example.com/oauth/introspect" false cid csec.

(** Every connection fails. *)
Definition net_down : network :=
  {| on_post := fun _ _ => None; on_get := fun _ _ => None |}.

(** Introspection answers [200] with [body]; userinfo answers an e-mail. *)
Definition net_answering (body : json) : network :=
  {| on_post := fun _ _ => Some {| status_code := 200; body_json := Some body |};
     on_get := fun _ _ =>
       Some {| status_code := 200;
               body_json := Some (JObj [("email", JStr "a@graviteesource.com")]) |} |}.

Definition full_kvs : list (string * json) :=
  [("active", JBool true); ("scope", JStr "openid full_profile");
   ("exp", JNum 1999999999); ("aud", JStr "http://localhost:8001")].

Definition introspection_full : json := JObj full_kvs.

Definition answer_full : http_response :=
  {| status_code := 200; body_json := Some introspection_full |}.

Definition no_scope_kvs : list (string * json) :=
  [("active", JBool true); ("exp", JNum 1999999999);
   ("aud", JStr "http://localhost:8001")].

Definition introspection_no_scope : json := JObj no_scope_kvs.

Definition answer_no_scope : http_response :=
  {| status_code := 200; body_json := Some introspection_no_scope |}.

Definition am_url : string := "http://localhost:8083".

Definition persisted_kvs : list (string * json) :=
  [("client_id", JStr "client-1"); ("client_secret", JStr "secret-1");
   ("client_name", JStr "cli")].

Definition unregistered : verifier :=
  mk_verifier "http://localhost:8083/oauth/introspect" false JNull JNull.

(** A server whose credentials file already holds a registration. *)
Definition st_registered : Routes.route_state :=
  {| Routes.cred_file := Some (JObj persisted_kvs);
     Routes.verifier_of := unregistered;
     Routes.upstream_log := [] |}.

(** A server started without a credentials file, before any [/register]. *)
Definition st_fresh : Routes.route_state :=
  {| Routes.cred_file := None;
     Routes.verifier_of := unregistered;
     Routes.upstream_log := [] |}.

(** An authorization server that registers every client as [client-1]
    and answers every token request. *)
Definition upstream_ok : Routes.upstream :=
  {| Routes.on_register := fun _ =>
       Some {| status_code := 201;
               body_json := Some (JObj
                 [("client_id", JStr "client-1"); ("client_secret", JStr "secret-1");
                  ("registration_access_token", JStr "rat");
                  ("registration_client_uri", JStr "http://localhost:8083/oidc/register/client-1");
                  ("client_name", JStr "cli")]) |};
     Routes.on_token := fun _ =>
       Some {| status_code := 200;
               body_json := Some (JObj [("access_token", JStr "at")]) |} |}.

Definition client_metadata : json := JObj [("client_name", JStr "cli")].

End Fixtures.

(** ** Loading the persisted credentials (token_verifier.py) *)

Module Startup.
Import Verifier Routes.

(** [set_client_credentials(client_id, client_secret)] *)
Definition set_client_credentials (v : verifier) (cid csec : json) : verifier :=
  with_credentials v cid csec.

(** [load_client_credentials(file_path)]: [file] is the JSON the file holds
    ([None] when it does not exist). [creds.get(...)] needs a dict. *)
Definition load_client_credentials (file : option json) (v : verifier) :
    outcome verifier :=
  match file with
  | None => Ok v
  | Some creds =>
      match py_get creds "client_id" JNull with
      | Exc e => Exc e
      | Ok cid =>
          match py_get creds "client_secret" JNull with
          | Exc e => Exc e
          | Ok csec => Ok (set_client_credentials v cid csec)
          end
      end
  end.

End Startup.

(** ** The [/authorize] redirect (routes/oauth.py) and [urllib.parse]

    Strings are taken as the bytes of their UTF-8 encoding, which is what
    [quote] works on. *)

Module Authorize.

(** [_ALWAYS_SAFE] of [urllib.parse] *)
Definition always_safe (c : ascii) : bool :=
  Url.is_one_of
    "ABCDEFGHIJKLMNOPQRSTUVWXYZabcdefghijklmnopqrstuvwxyz0123456789_.-~" c.

Definition hex_digits : string := "0123456789ABCDEF".

Definition hex_digit (n : nat) : ascii :=
  match String.get n hex_digits with Some c => c | None => "0"%char end.

(** ['%{:02X}'.format(b)] *)
Definition pct (c : ascii) : string :=
  String "%" (String (hex_digit (nat_of_ascii c / 16))
                     (String (hex_digit (nat_of_ascii c mod 16)) EmptyString)).

(** [quote(s, safe)]: every byte kept when it is always safe or in [safe],
    otherwise percent-encoded. *)
Fixpoint quote (safe : string) (s : string) : string :=
  match s with
  | EmptyString => EmptyString
  | String c r =>
      (if always_safe c || Url.is_one_of safe c then String c EmptyString else pct c)
        ++ quote safe r
  end.

(** [s.replace(a, b)] for one-character [a] and [b] *)
Fixpoint replace_char (a b : ascii) (s : string) : string :=
  match s with
  | EmptyString => EmptyString
  | String c r => String (if Ascii.eqb c a then b else c) (replace_char a b r)
  end.

(** [quote_plus(s)] with [safe=''] *)
Definition quote_plus (s : string) : string :=
  if Url.is_one_of s " "%char then replace_char " " "+" (quote " " s)
  else quote "" s.

(** [urlencode(params)] for a dict of strings ([quote_via=quote_plus]) *)
Definition urlencode (params : list (string * string)) : string :=
  String.concat "&"
    (map (fun kv => quote_plus (fst kv) ++ "=" ++ quote_plus (snd kv)) params).

(** [d[k] = v] on a dict of strings: an existing key keeps its place and
    takes the new value, a new key goes last. *)
Fixpoint set_item (k v : string) (d : list (string * string)) :
    list (string * string) :=
  match d with
  | [] => [(k, v)]
  | (k', v') :: rest =>
      if String.eqb k k' then (k', v) :: rest else (k', v') :: set_item k v rest
  end.

(** [dict(request.query_params)]: Starlette's [QueryParams] holds the raw
    items of the query in order, and its mapping view is built as
    [{k: v for k, v in items}], so the dict has one key per distinct name,
    in order of first appearance, holding that name's last value. *)
Definition query_dict (items : list (string * string)) : list (string * string) :=
  fold_left (fun d kv => set_item (fst kv) (snd kv) d) items [].

(** [authorize(request)]: the location of the redirect, for
    [params = dict(request.query_params)]. *)
Definition authorize (gravitee_am_url : string) (params : list (string * string)) :
    string :=
  gravitee_am_url ++ "/oauth/authorize?" ++ urlencode params.

(** The route on the raw query items of the request. *)
Definition authorize_request (gravitee_am_url : string)
    (items : list (string * string)) : string :=
  authorize gravitee_am_url (query_dict items).

(** The last value the raw query gives the name [k], if any. *)
Definition last_value (k : string) (items : list (string * string)) : option string :=
  fold_left (fun acc kv => if String.eqb k (fst kv) then Some (snd kv) else acc)
    items None.

(** The receiving side: [parse_qsl(query, keep_blank_values=True)], which
    splits at ['&'] and the first ['='] and applies [unquote_plus]. *)
Fixpoint index_of (c : ascii) (s : string) : option nat :=
  match s with
  | EmptyString => None
  | String x r => if Ascii.eqb c x then Some 0 else option_map S (index_of c r)
  end.

Definition hex_val (c : ascii) : option nat :=
  match index_of c "0123456789ABCDEF" with
  | Some n => Some n
  | None => option_map (fun n => n + 10) (index_of c "abcdef")
  end.

(** [unquote(s)]: a ['%'] followed by two hex digits is the byte they
    denote, any other ['%'] stays. *)
Fixpoint unquote (s : string) : string :=
  match s with
  | EmptyString => EmptyString
  | String c r =>
      if Ascii.eqb c "%" then
        match r with
        | String h1 (String h2 r') =>
            match hex_val h1, hex_val h2 with
            | Some a, Some b => String (ascii_of_nat (a * 16 + b)) (unquote r')
            | _, _ => String c (unquote r)
            end
        | _ => String c (unquote r)
        end
      else String c (unquote r)
  end.

(** [unquote_plus(s)] *)
Definition unquote_plus (s : string) : string := unquote (replace_char "+" " " s).

Definition parse_qsl (q : string) : list (string * string) :=
  map (fun item => let (k, v) := Routes.split_first_eq item in
                   (unquote_plus k, unquote_plus v))
      (filter (fun item => negb (String.eqb item "")) (split_on "&" q)).

End Authorize.

(** ** The tools' access check (routes/tools.py) *)

Module Tools.

(** [needle in haystack] on strings *)
Fixpoint str_contains (needle hay : string) : bool :=
  String.prefix needle hay ||
  match hay with
  | EmptyString => false
  | String _ r => str_contains needle r
  end.

(** [in] on [claims['email']], the value the userinfo endpoint returned:
    a substring test on a string, membership on a list, a key test on a
    dict; any other value raises [TypeError]. *)
Definition py_in (needle : string) (j : json) : outcome bool :=
  match j with
  | JStr s => Ok (str_contains needle s)
  | JArr l => Ok (existsb (fun x => match x with
                                    | JStr s => String.eqb s needle
                                    | _ => false
                                    end) l)
  | JObj kvs => Ok (has_key needle kvs)
  | _ => Exc TypeError
  end.

(** [if "graviteesource.com" in claims['email']:] of [get_time],
    [search_locations] and [get_weather_forecast]: [true] runs the tool,
    [false] raises [ToolError("403", "Forbidden", ...)]. *)
Definition email_allowed (claims : json) : outcome bool :=
  match py_getitem claims "email" with
  | Exc e => Exc e
  | Ok email => py_in "graviteesource.com" email
  end.

(** [params = {"q": quote(query), "limit": 5}] of [search_locations]
    ([quote]'s default [safe] is ["/"]); [requests.get] encodes them
    with [urlencode]. *)
Definition search_params (query : string) : list (string * string) :=
  [("q", Authorize.quote "/" query); ("limit", "5")].

End Tools.

(** ** The client's server URL (mcp_client/settings.py, auth.py) *)

Module Provider.

(** [s.replace("/mcp", "")]: occurrences are replaced left to right,
    without overlap. *)
Fixpoint replace_mcp (s : string) : string :=
  match s with
  | EmptyString => EmptyString
  | String c1 r1 =>
      let keep := String c1 (replace_mcp r1) in
      match r1 with
      | String c2 (String c3 (String c4 r4)) =>
          if Ascii.eqb c1 "/" && Ascii.eqb c2 "m" && Ascii.eqb c3 "c" && Ascii.eqb c4 "p"
          then replace_mcp r4 else keep
      | _ => keep
      end
  end.

(** [ClientSettings.server_url]; [port] is [str] of the configured port. *)
Definition client_server_url (transport_type port : string) : string :=
  if String.eqb transport_type "streamable_http"
  then "http://localhost:" ++ port ++ "/mcp"
  else "http://localhost:" ++ port ++ "/sse".

(** The [server_url] [create_oauth_provider] passes to
    [OAuthClientProvider]. *)
Definition provider_server_url (server_url : string) : string :=
  replace_mcp server_url.

End Provider.

(** ** Further concrete configurations *)

Module ExtraFixtures.
Import Verifier Routes.

(** A verifier whose userinfo endpoint is a plaintext URL of another host. *)
Definition v_remote_userinfo : verifier :=
  {| introspection_endpoint := "http://localhost:8083/oauth/introspect";
     userinfo_endpoint := "http://attacker.example/userinfo";
     server_url := "http://localhost:8001";
     validate_resource := false;
     resource_url := "http://localhost:8001";
     client_id := JStr "client-1";
     client_secret := JStr "secret-1" |}.

(** An authorization server that refuses every registration. *)
Definition upstream_rejecting : upstream :=
  {| on_register := fun _ =>
       Some {| status_code := 400;
               body_json := Some (JObj [("error", JStr "invalid_client_metadata")]) |};
     on_token := fun _ => None |}.

Definition no_client_id_kvs : list (string * json) :=
  [("registration_access_token", JStr "rat");
   ("registration_client_uri", JStr "http://localhost:8083/oidc/register/x");
   ("client_name", JStr "cli")].

(** An authorization server whose registration answer has no [client_id]. *)
Definition upstream_no_client_id : upstream :=
  {| on_register := fun _ =>
       Some {| status_code := 201; body_json := Some (JObj no_client_id_kvs) |};
     on_token := fun _ => None |}.

(** A verifier built with an empty [server_url] (its [resource_url] is then
    empty as well), with strict resource validation. *)
Definition v_no_server_url : verifier :=
  {| introspection_endpoint := "http://localhost:8083/oauth/introspect";
     userinfo_endpoint := "http://localhost:8083/oidc/userinfo";
     server_url := "";
     validate_resource := true;
     resource_url := "";
     client_id := JStr "client-1";
     client_secret := JStr "secret-1" |}.

(** The record a public client's registration leaves: no [client_secret]. *)
Definition public_kvs : list (string * json) :=
  [("client_id", JStr "client-1"); ("client_name", JStr "cli")].

End ExtraFixtures.

(** ** Form bodies as [token_proxy] parses them *)

Module Form.
Import Routes.

(** One step of the [dict(...)] construction of [token_proxy]: an item
    with ["="] sets its key, a later item overwriting an earlier one. *)
Definition form_step (d : list (string * json)) (item : string) : list (string * json) :=
  if contains_eq item then let (k, v) := split_first_eq item in dict_set k (JStr v) d
  else d.

(** [c in s] for a character [c] *)
Definition has_char (c : ascii) (s : string) : bool :=
  existsb (Ascii.eqb c) (list_ascii_of_string s).

(** A form body ["&".join(f"{k}={v}" for k, v in d.items())] for a dict
    of strings. *)
Definition form_body (d : list (string * string)) : string :=
  String.concat "&" (map (fun kv => fst kv ++ "=" ++ snd kv) d).

End Form.

(** * Properties *)

Import Verifier.

(** Case analysis on the innermost [match] of hypothesis [H], repeatedly. *)
Ltac crunch H :=
  repeat (match type of H with
          | context [match ?x with _ => _ end] =>
              lazymatch x with
              | context [match _ with _ => _ end] => fail
              | _ => let E := fresh "E" in destruct x eqn:E
              end
          end; simpl in H; try discriminate H).

Lemma introspect_some_inv lib v net token tr t tr' :
  introspect lib v net token tr = (Ok (Some t), tr') ->
  exists r kvs,
    on_post net (introspection_endpoint v) (introspection_form v token) = Some r /\
    status_code r = 200%Z /\ body_json r = Some (JObj kvs) /\
    truthy (match assoc "active" kvs with Some a => a | None => JBool false end) = true /\
    (validate_resource v = true -> validate_resource_fn lib v (JObj kvs) = Ok true) /\
    (exists s, assoc "scope" kvs = Some (JStr s)) /\
    (exists ui, on_get net (userinfo_endpoint v) ("Bearer " ++ token) = Some ui).
Proof.
  unfold introspect, bind, ret, lift, throw, http_post, http_get, resp_json.
  intro H. crunch H;
    destruct j as [| | | | | kvs]; simpl in E2; try discriminate E2;
    exists h, kvs;
    apply negb_false_iff in E0; apply Z.eqb_eq in E0; apply negb_false_iff in E3.
  all: split; [reflexivity|]; split; [exact E0|]; split; [exact E1|].
  all: split; [destruct (assoc "active" kvs); injection E2 as <-; assumption|].
  all: split; [ first [ intros _; apply negb_false_iff in E6; subst; exact E5
                      | intros Hf; discriminate Hf ] |].
  all: match goal with
       | Hs : py_split_space ?x = Ok _,
         Hg : py_get (JObj ?d) "scope" JNull = Ok ?x |- _ =>
           destruct x as [| | | sc | |]; simpl in Hs; try discriminate Hs;
           split; [exists sc; simpl in Hg; destruct (assoc "scope" d); congruence|]
       end.
  all: eexists; eassumption.
Qed.

Lemma run_verify_unfold lib v net token :
  run_verify lib v net token =
  if negb (truthy (client_id v)) || negb (truthy (client_secret v))
  then (Exc ValueError, [])
  else if negb (startswith_any (introspection_endpoint v) safe_prefixes)
  then (Ok None, [])
  else match introspect lib v net token [] with
       | (Ok r, tr) => (Ok r, tr)
       | (Exc _, tr) => (Ok None, tr)
       end.
Proof.
  unfold run_verify, verify_token.
  destruct (negb (truthy (client_id v)) || negb (truthy (client_secret v))); [reflexivity|].
  destruct (negb (startswith_any (introspection_endpoint v) safe_prefixes)); [reflexivity|].
  unfold try_catch. destruct (introspect lib v net token []) as [[r|e] tr]; reflexivity.
Qed.

Lemma run_verify_none lib v net token :
  credentials_set v = true ->
  (forall t tr', introspect lib v net token [] <> (Ok (Some t), tr')) ->
  fst (run_verify lib v net token) = Ok None.
Proof.
  unfold credentials_set. intros Hc Hn. rewrite run_verify_unfold.
  apply andb_true_iff in Hc as [-> ->]. cbn [negb orb].
  destruct (startswith_any (introspection_endpoint v) safe_prefixes); cbn [negb]; [|reflexivity].
  destruct (introspect lib v net token []) as [[[t|]|e] tr] eqn:E; try reflexivity.
  exfalso. exact (Hn t tr eq_refl).
Qed.

Lemma is_valid_resource_true lib v a :
  is_valid_resource lib v a = Ok true ->
  exists s, a = JStr s /\ check_resource_allowed lib (resource_url v) s = Some true.
Proof.
  unfold is_valid_resource. destruct (String.eqb (resource_url v) ""); [discriminate|].
  destruct a; try (destruct (truthy _); discriminate).
  destruct (check_resource_allowed lib (resource_url v) s) as [[|]|] eqn:E;
    intro H; try discriminate H. eauto.
Qed.

Lemma any_valid_resource_true lib v l :
  any_valid_resource lib v l = Ok true ->
  exists s, In (JStr s) l /\ check_resource_allowed lib (resource_url v) s = Some true.
Proof.
  induction l as [|a rest IH]; simpl; [discriminate|].
  destruct (is_valid_resource lib v a) as [[|]|] eqn:E; intro H; try discriminate H.
  - apply is_valid_resource_true in E as (s & -> & Hs). eauto.
  - destruct (IH H) as (s & Hin & Hs). eauto.
Qed.

Lemma validate_resource_true lib v kvs :
  validate_resource_fn lib v (JObj kvs) = Ok true ->
  aud_matches lib v (match assoc "aud" kvs with Some a => a | None => JNull end).
Proof.
  unfold validate_resource_fn.
  destruct (String.eqb (server_url v) "" || String.eqb (resource_url v) ""); [discriminate|].
  cbn [py_get]. destruct (assoc "aud" kvs) as [aud|]; [|discriminate].
  destruct aud as [| b | n | str | l | o]; intro H.
  all: repeat match type of H with
              | context [if ?b then _ else _] => destruct b
              end; try discriminate H.
  all: first [ exact (any_valid_resource_true lib v l H)
             | apply is_valid_resource_true in H as (s' & Hs' & H');
               first [ discriminate Hs' | injection Hs' as <-; exact H' ] ].
Qed.

Lemma any_valid_resource_first lib v pre s post :
  resource_url v <> "" ->
  Forall (fun a => is_valid_resource lib v a = Ok false) pre ->
  check_resource_allowed lib (resource_url v) s = Some true ->
  any_valid_resource lib v (pre ++ JStr s :: post) = Ok true.
Proof.
  intros Hr Hpre Hs. induction Hpre as [|a pre Ha _ IH]; simpl.
  - unfold is_valid_resource. apply String.eqb_neq in Hr. rewrite Hr, Hs. reflexivity.
  - rewrite Ha. exact IH.
Qed.

Lemma validate_resource_first lib v kvs :
  server_url v <> "" -> resource_url v <> "" ->
  aud_first_match lib v (assoc "aud" kvs) ->
  validate_resource_fn lib v (JObj kvs) = Ok true.
Proof.
  intros Hs Hr Ha. unfold validate_resource_fn.
  pose proof Hr as Hr'. apply String.eqb_neq in Hs, Hr'. rewrite Hs, Hr'. simpl.
  destruct Ha as [(s & -> & Hne & Hm) | (pre & s & post & -> & Hpre & Hm)].
  - simpl. apply String.eqb_neq in Hne. rewrite Hne. simpl.
    unfold is_valid_resource. rewrite Hr', Hm. reflexivity.
  - apply any_valid_resource_first; assumption.
Qed.

Lemma introspect_lenient lib v net token tr r kvs :
  validate_resource v = true ->
  on_post net (introspection_endpoint v) (introspection_form v token) = Some r ->
  body_json r = Some (JObj kvs) ->
  validate_resource_fn lib v (JObj kvs) = Ok true ->
  introspect lib v net token tr = introspect lib (lenient v) net token tr.
Proof.
  intros Hv Hp Hb Hval.
  unfold introspect, bind, http_post, http_get, lift, ret, throw, resp_json.
  assert (Hf : introspection_form (lenient v) token = introspection_form v token)
    by reflexivity.
  simpl. rewrite Hf, Hp.
  destruct (negb (Z.eqb (status_code r) 200)); [reflexivity|].
  rewrite Hb. simpl.
  destruct (assoc "active" kvs) as [a|]; simpl; [|reflexivity].
  destruct (negb (truthy a)); [reflexivity|].
  rewrite Hv, Hval. reflexivity.
Qed.

Import Fixtures.

(** ** Introspection endpoint guard *)

Lemma introspect_trace lib v net token tr0 res tr :
  introspect lib v net token tr0 = (res, tr) ->
  tr = app tr0 [Post (introspection_endpoint v) (introspection_form v token)] \/
  (tr = app tr0 [Post (introspection_endpoint v) (introspection_form v token);
                 Get (userinfo_endpoint v) ("Bearer " ++ token)] /\
   exists r kvs,
     on_post net (introspection_endpoint v) (introspection_form v token) = Some r /\
     status_code r = 200%Z /\ body_json r = Some (JObj kvs) /\
     truthy (match assoc "active" kvs with Some a => a | None => JBool false end) = true /\
     (validate_resource v = true -> validate_resource_fn lib v (JObj kvs) = Ok true)).
Proof.
  unfold introspect, bind, ret, lift, throw, http_post, http_get, resp_json.
  destruct (on_post net _ _) as [r|] eqn:Ep;
    [|intro H; injection H as _ <-; left; reflexivity].
  destruct (negb (Z.eqb (status_code r) 200)) eqn:Es;
    [intro H; injection H as _ <-; left; reflexivity|].
  destruct (body_json r) as [data|] eqn:Eb;
    [|intro H; injection H as _ <-; left; reflexivity].
  destruct data as [| | | | | kvs]; cbn [py_get];
    try (intro H; injection H as _ <-; left; reflexivity).
  assert (Ea : match assoc "active" kvs with Some v0 => Ok v0 | None => Ok (JBool false) end
               = Ok (match assoc "active" kvs with Some a => a | None => JBool false end))
    by (destruct (assoc "active" kvs); reflexivity).
  rewrite Ea.
  destruct (negb (truthy _)) eqn:Et; [intro H; injection H as _ <-; left; reflexivity|].
  apply negb_false_iff in Es, Et. apply Z.eqb_eq in Es.
  destruct (validate_resource v) eqn:Ev.
  - destruct (validate_resource_fn lib v (JObj kvs)) as [[|]|e] eqn:Evf;
      cbn [negb]; try (intro H; injection H as _ <-; left; reflexivity).
    intro H. right. split; [|exists r, kvs; repeat split; try assumption; intros _; exact Evf].
    crunch H. all: injection H as _ <-; rewrite <- List.app_assoc; reflexivity.
  - cbn [negb].
    intro H. right. split; [|exists r, kvs; repeat split; try assumption; intro Hf; discriminate Hf].
    crunch H. all: injection H as _ <-; rewrite <- List.app_assoc; reflexivity.
Qed.

(** C1 (the code at the failing input): the guard is a prefix test on the
    URL text, so an endpoint whose host merely starts with [localhost]
    passes it. With credentials set, [verify_token] then sends its first
    request, the introspection POST carrying the token, [client_id] and
    [client_secret], to that endpoint, whatever host follows the prefix. *)
Theorem verify_token_posts_to_localhost_prefix lib v net token :
  credentials_set v = true ->
  String.prefix "http://localhost" (introspection_endpoint v) = true ->
  exists rest, snd (run_verify lib v net token) =
    Post (introspection_endpoint v) (introspection_form v token) :: rest.
Proof.
  unfold credentials_set. intros Hc Hp.
  rewrite run_verify_unfold. apply andb_true_iff in Hc as [-> ->].
  assert (Hs : startswith_any (introspection_endpoint v) safe_prefixes = true).
  { unfold startswith_any, safe_prefixes. cbn [existsb]. rewrite Hp, orb_true_r. reflexivity. }
  rewrite Hs. cbn [negb orb].
  destruct (introspect lib v net token []) as [res tr] eqn:E.
  apply introspect_trace in E as [->|[-> _]].
  - destruct res; eexists; reflexivity.
  - destruct res; eexists; reflexivity.
Qed.

(** At [http://localhost.evil.com/oauth/introspect], plaintext [http] to
    the non-loopback host [localhost.evil.com], the credentials are posted. *)
Lemma verify_token_posts_to_localhost_prefix_witness :
  Url.url_host (introspection_endpoint v_evil) = "localhost.evil.com" /\
  Url.http_to_loopback (introspection_endpoint v_evil) = false /\
  credentials_set v_evil = true /\
  exists rest, snd (run_verify lib_eq v_evil net_down "tok") =
    Post "http://localhost.evil.com/oauth/introspect"
      [("token", JStr "tok"); ("client_id", JStr "client-1");
       ("client_secret", JStr "secret-1")] :: rest.
Proof.
  split; [reflexivity|]. split; [reflexivity|]. split; [reflexivity|].
  apply (verify_token_posts_to_localhost_prefix lib_eq v_evil net_down "tok");
    reflexivity.
Defined.

(** ** Failures of [verify_token] *)

(** C3: [verify_token] raises exactly when the client credentials are
    missing (then [ValueError], before any network call); with credentials
    set it always returns, and it returns [None] when the introspection POST
    fails, answers a non-200 status, reports the token inactive, fails strict
    resource validation, or when the userinfo request fails. *)
Theorem verify_token_raises_only_without_credentials lib v net token :
  (credentials_set v = false -> run_verify lib v net token = (Exc ValueError, [])) /\
  (forall e, fst (run_verify lib v net token) = Exc e ->
     credentials_set v = false /\ e = ValueError) /\
  (credentials_set v = true ->
     on_post net (introspection_endpoint v) (introspection_form v token) = None \/
     (exists r, on_post net (introspection_endpoint v) (introspection_form v token) = Some r /\
        status_code r <> 200%Z) \/
     (exists r kvs, on_post net (introspection_endpoint v) (introspection_form v token) = Some r /\
        body_json r = Some (JObj kvs) /\
        truthy (match assoc "active" kvs with Some a => a | None => JBool false end) = false) \/
     (exists r d, on_post net (introspection_endpoint v) (introspection_form v token) = Some r /\
        body_json r = Some d /\ validate_resource v = true /\
        validate_resource_fn lib v d <> Ok true) \/
     on_get net (userinfo_endpoint v) ("Bearer " ++ token) = None ->
     fst (run_verify lib v net token) = Ok None).
Proof.
  split; [|split].
  - intros Hc. rewrite run_verify_unfold. unfold credentials_set in Hc.
    destruct (truthy (client_id v)), (truthy (client_secret v));
      try discriminate Hc; reflexivity.
  - intros e He. rewrite run_verify_unfold in He. unfold credentials_set.
    destruct (truthy (client_id v)), (truthy (client_secret v));
      cbn [negb orb andb fst] in He |- *;
      try (injection He as <-; split; reflexivity).
    destruct (startswith_any (introspection_endpoint v) safe_prefixes);
      cbn [negb fst] in He; [|discriminate He].
    destruct (introspect lib v net token []) as [[r|e'] tr]; discriminate He.
  - intros Hc Hcases. apply run_verify_none; [exact Hc|].
    intros t tr' Ht. apply introspect_some_inv in Ht
      as (r & kvs & Hp & Hs & Hb & Ha & Hval & _ & (ui & Hui)).
    destruct Hcases as [H | [(r' & H & Hne) | [(r' & kvs' & H & Hb' & Ha') |
                       [(r' & d & H & Hb' & Hv & Hnv) | H]]]];
      try rewrite H in Hp; try (injection Hp as <-); try congruence.
    + rewrite Hb in Hb'. injection Hb' as <-. congruence.
    + rewrite Hb in Hb'. injection Hb' as <-. exact (Hnv (Hval Hv)).
Qed.

Lemma verify_token_raises_only_without_credentials_witness :
  run_verify lib_eq (v_ftp JNull JNull) net_down "tok" = (Exc ValueError, []) /\
  fst (run_verify lib_eq v_strict net_down "tok") = Ok None.
Proof.
  split.
  - exact (proj1 (verify_token_raises_only_without_credentials
                    lib_eq (v_ftp JNull JNull) net_down "tok") eq_refl).
  - exact (proj2 (proj2 (verify_token_raises_only_without_credentials
                           lib_eq v_strict net_down "tok")) eq_refl
             (or_introl eq_refl)).
Defined.

(** C10: when the introspection response carries no [scope] field (absent
    or [null]), [verify_token] returns [None]: [None.split(" ")] raises
    [AttributeError], which the [except Exception] block turns into [None];
    no [VerifiedToken] with an empty scope set is built and nothing
    escapes. *)
Theorem verify_token_none_without_scope lib v net token r kvs :
  credentials_set v = true ->
  on_post net (introspection_endpoint v) (introspection_form v token) = Some r ->
  body_json r = Some (JObj kvs) ->
  assoc "scope" kvs = None \/ assoc "scope" kvs = Some JNull ->
  fst (run_verify lib v net token) = Ok None.
Proof.
  intros Hc Hp Hb Hscope. apply run_verify_none; [exact Hc|].
  intros t tr' Ht. apply introspect_some_inv in Ht
    as (r' & kvs' & Hp' & _ & Hb' & _ & _ & (s & Hs) & _).
  rewrite Hp in Hp'. injection Hp' as <-. rewrite Hb in Hb'. injection Hb' as <-.
  destruct Hscope as [H | H]; rewrite H in Hs; discriminate Hs.
Qed.

Lemma verify_token_none_without_scope_witness :
  credentials_set v_strict = true /\
  on_post (net_answering introspection_no_scope) (introspection_endpoint v_strict)
    (introspection_form v_strict "tok") = Some answer_no_scope /\
  assoc "scope" no_scope_kvs = None /\
  fst (run_verify lib_eq v_strict (net_answering introspection_no_scope) "tok") = Ok None.
Proof.
  split; [reflexivity|]. split; [reflexivity|]. split; [reflexivity|].
  exact (verify_token_none_without_scope lib_eq v_strict
           (net_answering introspection_no_scope) "tok" answer_no_scope no_scope_kvs
           eq_refl eq_refl eq_refl (or_introl eq_refl)).
Defined.

(** ** Strict resource validation *)

(** C2 (amended): with strict resource validation on, a [VerifiedToken] is
    returned only when the introspection response's [aud] is a string or a
    list containing an entry that hierarchically matches the configured
    resource URL (so an absent [aud], a non-matching string or a list
    without a match yields [None]); and when [aud] is a matching non-empty
    string, or a list whose entries before a matching one are checked
    without error, [verify_token] behaves exactly as it does without strict
    validation: it still returns [None] if a later step fails (missing
    [scope], failing userinfo request, rejected token fields). *)
Theorem verify_token_strict_audience lib v net token :
  validate_resource v = true ->
  (forall t, fst (run_verify lib v net token) = Ok (Some t) ->
     exists r kvs,
       on_post net (introspection_endpoint v) (introspection_form v token) = Some r /\
       body_json r = Some (JObj kvs) /\
       aud_matches lib v (match assoc "aud" kvs with Some a => a | None => JNull end)) /\
  (forall r kvs,
     on_post net (introspection_endpoint v) (introspection_form v token) = Some r ->
     body_json r = Some (JObj kvs) ->
     server_url v <> "" -> resource_url v <> "" ->
     aud_first_match lib v (assoc "aud" kvs) ->
     run_verify lib v net token = run_verify lib (lenient v) net token).
Proof.
  intros Hv. split.
  - intros t Ht. rewrite run_verify_unfold in Ht.
    destruct (negb (truthy (client_id v)) || negb (truthy (client_secret v)));
      [discriminate Ht|].
    destruct (negb (startswith_any (introspection_endpoint v) safe_prefixes));
      [discriminate Ht|].
    destruct (introspect lib v net token []) as [[r|e] tr] eqn:E; [|discriminate Ht].
    simpl in Ht. injection Ht as ->.
    apply introspect_some_inv in E as (r & kvs & Hp & _ & Hb & _ & Hval & _).
    exists r, kvs. split; [exact Hp|]. split; [exact Hb|].
    exact (validate_resource_true lib v kvs (Hval Hv)).
  - intros r kvs Hp Hb Hs Hr Ha.
    rewrite !run_verify_unfold.
    rewrite (introspect_lenient lib v net token [] r kvs Hv Hp Hb
               (validate_resource_first lib v kvs Hs Hr Ha)).
    reflexivity.
Qed.

Lemma verify_token_strict_audience_witness :
  validate_resource v_strict = true /\
  aud_first_match lib_eq v_strict (assoc "aud" full_kvs) /\
  run_verify lib_eq v_strict (net_answering introspection_full) "tok" =
    run_verify lib_eq (lenient v_strict) (net_answering introspection_full) "tok".
Proof.
  assert (Ha : aud_first_match lib_eq v_strict (assoc "aud" full_kvs)).
  { left. exists "http://localhost:8001". split; [reflexivity|].
    split; [discriminate | reflexivity]. }
  split; [reflexivity|]. split; [exact Ha|].
  exact (proj2 (verify_token_strict_audience lib_eq v_strict
                  (net_answering introspection_full) "tok" eq_refl)
           answer_full full_kvs eq_refl eq_refl
           ltac:(discriminate) ltac:(discriminate) Ha).
Defined.

(** C2 (counterexample): with strict validation, an active token whose
    [aud] is exactly the configured resource URL still yields [None] when
    the response has no [scope]: a matching [aud] does not make
    [verify_token] return a [VerifiedToken]. *)
Lemma verify_token_strict_audience_counterexample :
  aud_matches lib_eq v_strict
    (match assoc "aud" no_scope_kvs with Some a => a | None => JNull end) /\
  run_verify lib_eq v_strict (net_answering introspection_no_scope) "tok" =
    (Ok None, [Post "http://localhost:8083/oauth/introspect"
                 (introspection_form v_strict "tok");
               Get "http://localhost:8083/oidc/userinfo" "Bearer tok"]) /\
  ~ (aud_matches lib_eq v_strict
       (match assoc "aud" no_scope_kvs with Some a => a | None => JNull end) <->
     exists t, fst (run_verify lib_eq v_strict (net_answering introspection_no_scope) "tok")
               = Ok (Some t)).
Proof.
  split; [reflexivity|]. split; [reflexivity|].
  intros [H _]. destruct (H eq_refl) as [t Ht]. vm_compute in Ht. discriminate Ht.
Qed.

(** ** The registration route *)

Import Routes.

Lemma has_key_remove_key {V} k (kvs : list (string * V)) :
  has_key k (remove_key k kvs) = false.
Proof.
  unfold has_key. induction kvs as [|[k' v'] rest IH]; [reflexivity|].
  simpl. destruct (String.eqb k k') eqn:E; simpl; [exact IH|].
  rewrite E. exact IH.
Qed.

Lemma register_client_success am up req st body st1 :
  register_client am up req st = (Ok (JSONResp 200 body), st1) ->
  exists kvs cid csec,
    cred_file st1 = Some (JObj kvs) /\
    assoc "client_id" kvs = Some cid /\ assoc "client_secret" kvs = Some csec /\
    verifier_of st1 = with_credentials (verifier_of st) cid csec /\
    body = JObj (remove_key "client_secret" kvs).
Proof.
  unfold register_client, try_catch, bind, ret, lift, throw, load_credentials,
    post_register, log_call, save_credentials, set_verifier_client_id,
    set_verifier_client_secret.
  intro H. crunch H.
  all: injection H as <- <-;
    match goal with
    | Hg : py_getitem ?d "client_id" = Ok ?cid,
      Hs : py_getitem ?d "client_secret" = Ok ?cs,
      Hd : py_del ?d "client_secret" = Ok _ |- _ =>
        destruct d as [| | | | | kvs]; try discriminate Hg;
        exists kvs, cid, cs; cbn [py_getitem py_del] in Hg, Hs, Hd;
        destruct (assoc "client_id" kvs) eqn:Eci; [injection Hg as <-|discriminate Hg];
        destruct (assoc "client_secret" kvs) eqn:Ecs; [injection Hs as <-|discriminate Hs];
        unfold has_key in Hd; rewrite Ecs in Hd; injection Hd as <-;
        repeat split; try assumption; reflexivity
    end.
Qed.

Lemma register_client_reuses_persisted am up req st kvs cid csec :
  cred_file st = Some (JObj kvs) ->
  assoc "client_id" kvs = Some cid -> assoc "client_secret" kvs = Some csec ->
  register_client am up req st =
    (Ok (JSONResp 200 (JObj (remove_key "client_secret" kvs))),
     {| cred_file := cred_file st;
        verifier_of := with_credentials (verifier_of st) cid csec;
        upstream_log := upstream_log st |}).
Proof.
  intros Hf Hci Hcs.
  assert (Ht : truthy (JObj kvs) = true) by (destruct kvs; [discriminate Hci | reflexivity]).
  unfold register_client, try_catch, bind, ret, lift, load_credentials,
    set_verifier_client_id, set_verifier_client_secret.
  rewrite Hf. cbn -[truthy assoc]. rewrite Ht. cbn -[truthy assoc]. rewrite Hci, Hcs.
  unfold has_key. rewrite Hcs, Hf. reflexivity.
Qed.

Lemma assoc_remove_key_other {V} k k' (kvs : list (string * V)) :
  k <> k' -> assoc k (remove_key k' kvs) = assoc k kvs.
Proof.
  intros Hne. induction kvs as [|[k0 v0] rest IH]; [reflexivity|].
  simpl. destruct (String.eqb k' k0) eqn:E; simpl.
  - apply String.eqb_eq in E. subst k0.
    apply String.eqb_neq in Hne. rewrite Hne. exact IH.
  - destruct (String.eqb k k0); [reflexivity | exact IH].
Qed.

(** C5: a registration request handled while the credentials file holds a
    record with [client_id] and [client_secret] makes no upstream call,
    leaves the file untouched, loads those credentials into the verifier and
    returns the record (without the secret) carrying the existing
    [client_id]; hence handling a second request right after a successful
    one returns the same response and leaves the whole state (file,
    in-memory credentials, upstream calls made) as the first left it. *)
Theorem register_client_idempotent am up req st :
  (forall kvs cid csec,
     cred_file st = Some (JObj kvs) ->
     assoc "client_id" kvs = Some cid -> assoc "client_secret" kvs = Some csec ->
     exists body,
       register_client am up req st =
         (Ok (JSONResp 200 (JObj body)),
          {| cred_file := cred_file st;
             verifier_of := with_credentials (verifier_of st) cid csec;
             upstream_log := upstream_log st |}) /\
       assoc "client_id" body = Some cid) /\
  (forall up0 req0 st0 body,
     register_client am up0 req0 st0 = (Ok (JSONResp 200 body), st) ->
     register_client am up req st = (Ok (JSONResp 200 body), st)).
Proof.
  split.
  - intros kvs cid csec Hf Hci Hcs. exists (remove_key "client_secret" kvs). split.
    + exact (register_client_reuses_persisted am up req st kvs cid csec Hf Hci Hcs).
    + rewrite assoc_remove_key_other; [exact Hci | discriminate].
  - intros up0 req0 st0 body H.
    apply register_client_success in H as (kvs & cid & csec & Hf & Hci & Hcs & Hv & ->).
    rewrite (register_client_reuses_persisted am up req st kvs cid csec Hf Hci Hcs).
    destruct st as [f v log]. simpl in *. subst v. reflexivity.
Qed.

Lemma register_client_idempotent_witness :
  cred_file st_registered = Some (JObj persisted_kvs) /\
  (exists body,
     register_client am_url upstream_ok (Some client_metadata) st_registered =
       (Ok (JSONResp 200 (JObj body)),
        {| cred_file := cred_file st_registered;
           verifier_of := with_credentials unregistered (JStr "client-1") (JStr "secret-1");
           upstream_log := [] |}) /\
     assoc "client_id" body = Some (JStr "client-1")) /\
  (let st1 := snd (register_client am_url upstream_ok (Some client_metadata) st_fresh) in
   register_client am_url upstream_ok (Some client_metadata) st1 =
     (Ok (JSONResp 200 (JObj [("client_id", JStr "client-1"); ("client_name", JStr "cli")])),
      st1)).
Proof.
  split; [reflexivity|]. split.
  - exact (proj1 (register_client_idempotent am_url upstream_ok (Some client_metadata)
                    st_registered) persisted_kvs (JStr "client-1") (JStr "secret-1")
             eq_refl eq_refl eq_refl).
  - exact (proj2 (register_client_idempotent am_url upstream_ok (Some client_metadata)
                    (snd (register_client am_url upstream_ok (Some client_metadata) st_fresh)))
             upstream_ok (Some client_metadata) st_fresh
             (JObj [("client_id", JStr "client-1"); ("client_name", JStr "cli")])
             eq_refl).
Defined.

Lemma py_del_strips d k d' :
  py_del d k = Ok d' -> exists kvs, d' = JObj kvs /\ has_key k kvs = false.
Proof.
  destruct d; simpl; try discriminate.
  destruct (has_key k kvs); intro H; [|discriminate H].
  injection H as <-. exists (remove_key k kvs). split; [reflexivity|].
  apply has_key_remove_key.
Qed.

Lemma py_del_keeps_absent d k k' d' kvs :
  k <> k' -> d = JObj kvs -> has_key k kvs = false -> py_del d k' = Ok d' ->
  exists kvs', d' = JObj kvs' /\ has_key k kvs' = false.
Proof.
  intros Hne -> Hk. simpl. destruct (has_key k' kvs); intro H; [|discriminate H].
  injection H as <-. exists (remove_key k' kvs). split; [reflexivity|].
  unfold has_key in *. rewrite assoc_remove_key_other; assumption.
Qed.

(** C6: the credentials file is written only by [register_client], and
    only after both [del data['registration_access_token']] and
    [del data['registration_client_uri']] succeeded: after any
    registration request the file is either unchanged or holds a JSON
    object with neither key; the token proxy never writes it. *)
Theorem register_client_strips_management_fields am up req st :
  (cred_file (snd (register_client am up req st)) = cred_file st \/
   exists kvs, cred_file (snd (register_client am up req st)) = Some (JObj kvs) /\
     has_key "registration_access_token" kvs = false /\
     has_key "registration_client_uri" kvs = false) /\
  (forall body, cred_file (snd (token_proxy am up body st)) = cred_file st).
Proof.
  split.
  - destruct (register_client am up req st) as [o st'] eqn:H. simpl.
    unfold register_client, try_catch, bind, ret, lift, throw, load_credentials,
      post_register, log_call, save_credentials, set_verifier_client_id,
      set_verifier_client_secret in H.
    crunch H.
    all: injection H as _ <-; cbn [cred_file];
      first [ left; reflexivity
            | left; assumption
            | right;
              match goal with
              | H1 : py_del ?d0 "registration_access_token" = Ok ?d1,
                H2 : py_del ?d1 "registration_client_uri" = Ok ?d2 |- _ =>
                  pose proof (py_del_strips _ _ _ H2) as (kvs2 & -> & Hu);
                  pose proof (py_del_strips _ _ _ H1) as (kvs1 & -> & Hr);
                  destruct (py_del_keeps_absent _ "registration_access_token"
                              "registration_client_uri" _ kvs1 ltac:(discriminate)
                              eq_refl Hr H2) as (kvs2' & Heq & Hr2);
                  injection Heq as <-; exists kvs2; auto
              end ].
  - intros body. unfold token_proxy. destruct body as [b|]; [|reflexivity].
    repeat match goal with
           | |- context [match ?x with _ => _ end] => destruct x
           end; reflexivity.
Qed.

(** ** The token proxy *)

Lemma assoc_dict_set k v d : assoc k (dict_set k v d) = Some v.
Proof.
  induction d as [|[k' v'] rest IH]; simpl.
  - rewrite String.eqb_refl. reflexivity.
  - destruct (String.eqb k k') eqn:E; simpl; rewrite E; [reflexivity | exact IH].
Qed.

Lemma assoc_remove_key {V} k (d : list (string * V)) : assoc k (remove_key k d) = None.
Proof.
  pose proof (has_key_remove_key k d) as H. unfold has_key in H.
  destruct (assoc k (remove_key k d)); [discriminate H | reflexivity].
Qed.

(** The forwarded form carries a [client_secret] exactly when
    [form_dict.get("client_id") == token_verifier.client_id] holds in
    Python, and then it is the verifier's secret. *)
Lemma proxy_form_secret v b :
  assoc "client_secret" (proxy_form v b) =
    if form_value_eq (assoc "client_id" (parse_form b)) (client_id v)
    then Some (client_secret v) else None.
Proof.
  unfold proxy_form.
  destruct (form_value_eq (assoc "client_id" (parse_form b)) (client_id v)).
  - apply assoc_dict_set.
  - apply assoc_remove_key.
Qed.

(** With a registered client (a string [client_id]) the proxy injects the
    secret exactly when the request's [client_id] field is that string. *)
Lemma proxy_form_secret_registered v b cid :
  client_id v = JStr cid ->
  assoc "client_secret" (proxy_form v b) =
    if form_value_eq (assoc "client_id" (parse_form b)) (JStr cid)
    then Some (client_secret v) else None.
Proof. intros H. rewrite proxy_form_secret, H. reflexivity. Qed.

(** C4 (the code at the failing input): on a server that has no
    registered client yet ([client_id] and [client_secret] are [None]), a
    token request without a [client_id] field but with a caller-supplied
    [client_secret] is forwarded with a [client_secret] field: [None == None]
    holds, so [form_dict["client_secret"] = None] replaces the caller's value
    and the upstream body reads
    [grant_type=authorization_code&code=abc&client_secret=None]. *)
Theorem token_proxy_unregistered_injects_secret :
  let body := "grant_type=authorization_code&code=abc&client_secret=attacker" in
  assoc "client_id" (parse_form body) = None /\
  client_id (verifier_of st_fresh) = JNull /\
  upstream_log (snd (token_proxy am_url upstream_ok (Some body) st_fresh)) =
    [TokenPost "http://localhost:8083/oauth/token"
       [("grant_type", JStr "authorization_code"); ("code", JStr "abc");
        ("client_secret", JNull)]].
Proof. vm_compute. repeat split. Qed.

(** ** The callback listener *)

Import Callback.

Lemma handle_batch_unrecognized cd reqs :
  Forall (fun q => unrecognized q = true) reqs -> handle_batch cd reqs = cd.
Proof.
  unfold handle_batch. revert cd.
  induction reqs as [|q rest IH]; intros cd H; [reflexivity|].
  inversion H as [|? ? Hq Hrest]; subst. simpl.
  unfold unrecognized in Hq. unfold do_GET.
  destruct (assoc "code" q); [discriminate|].
  destruct (assoc "error" q); [discriminate|].
  simpl. apply IH, Hrest.
Qed.

Lemma handle_batch_code cd reqs :
  authorization_code (handle_batch cd reqs) = last_code_from (authorization_code cd) reqs.
Proof.
  unfold handle_batch. revert cd.
  induction reqs as [|q rest IH]; intros cd; [reflexivity|].
  simpl. rewrite IH. f_equal. unfold do_GET.
  destruct (assoc "code" q) as [[|c cs]|].
  - reflexivity.
  - destruct (assoc "state" q) as [[|s ss]|]; reflexivity.
  - destruct (assoc "error" q) as [[|e es]|]; reflexivity.
Qed.

Lemma handle_batch_error cd reqs :
  error (handle_batch cd reqs) = last_error_from (error cd) reqs.
Proof.
  unfold handle_batch. revert cd.
  induction reqs as [|q rest IH]; intros cd; [reflexivity|].
  simpl. rewrite IH. f_equal. unfold do_GET.
  destruct (assoc "code" q) as [[|c cs]|].
  - reflexivity.
  - destruct (assoc "state" q) as [[|s ss]|]; reflexivity.
  - destruct (assoc "error" q) as [[|e es]|]; reflexivity.
Qed.

(** [parse_qs] never yields a blank value, so a recorded value is truthy. *)
Lemma wf_query_value q k v vs :
  wf_query q -> assoc k q = Some (v :: vs) -> v <> "".
Proof.
  unfold wf_query. induction 1 as [|[k' vs'] rest [_ Hvals] _ IH]; simpl; [discriminate|].
  destruct (String.eqb k k'); [|exact IH].
  intros E. injection E as E. subst vs'. inversion Hvals; assumption.
Qed.

Lemma last_code_from_nonblank acc reqs c :
  (forall c', acc = Some c' -> c' <> "") -> Forall wf_query reqs ->
  last_code_from acc reqs = Some c -> c <> "".
Proof.
  revert acc. induction reqs as [|q rest IH]; intros acc Hacc Hwf; simpl.
  - apply Hacc.
  - inversion Hwf as [|? ? Hq Hrest]; subst. apply IH; [|exact Hrest].
    destruct (assoc "code" q) as [[|c0 cs]|] eqn:E; try exact Hacc.
    intros c' Hc'. injection Hc' as <-. eapply wf_query_value; eassumption.
Qed.

Lemma last_error_from_nonblank acc reqs e :
  (forall e', acc = Some e' -> e' <> "") -> Forall wf_query reqs ->
  last_error_from acc reqs = Some e -> e <> "".
Proof.
  revert acc. induction reqs as [|q rest IH]; intros acc Hacc Hwf; simpl.
  - apply Hacc.
  - inversion Hwf as [|? ? Hq Hrest]; subst. apply IH; [|exact Hrest].
    destruct (assoc "code" q) as [[|c0 cs]|]; try exact Hacc.
    destruct (assoc "error" q) as [[|e0 es]|] eqn:E; try exact Hacc.
    intros e' He'. injection He' as <-. eapply wf_query_value; eassumption.
Qed.

Lemma last_code_from_no_code acc reqs :
  Forall (fun q => assoc "code" q = None) reqs -> last_code_from acc reqs = acc.
Proof.
  revert acc. induction reqs as [|q rest IH]; intros acc H; [reflexivity|].
  inversion H as [|? ? Hq Hrest]; subst. simpl. rewrite Hq. apply IH, Hrest.
Qed.

Lemma opt_truthy_some s : s <> "" -> opt_truthy (Some s) = true.
Proof.
  intros H. simpl. destruct (String.eqb s "") eqn:E; [|reflexivity].
  apply String.eqb_eq in E. contradiction.
Qed.

(** While only unrecognized requests arrive, each poll of the loop leaves
    the shared dict as it is; the first batch with a recognized request is
    handled at poll [length pre + 1]. *)
Lemma wait_for_callback_skip pre batch post cd m :
  opt_truthy (authorization_code cd) = false ->
  opt_truthy (error cd) = false ->
  Forall (fun b => Forall (fun q => unrecognized q = true) b) pre ->
  wait_for_callback (length pre + S m) cd (app pre (batch :: post)) =
    wait_for_callback m (handle_batch cd batch) post.
Proof.
  intros Hc He Hpre. induction Hpre as [|b pre' Hb _ IH].
  - simpl. rewrite Hc, He. reflexivity.
  - simpl. rewrite Hc, He, (handle_batch_unrecognized cd b Hb). exact IH.
Qed.

Lemma wait_for_callback_idle polls cd arrivals :
  opt_truthy (authorization_code cd) = false ->
  opt_truthy (error cd) = false ->
  Forall (fun b => Forall (fun q => unrecognized q = true) b) arrivals ->
  wait_for_callback polls cd arrivals = (WTimeout, cd).
Proof.
  intros Hc He. revert arrivals.
  induction polls as [|n IH]; intros arrivals Harr; [reflexivity|].
  simpl. rewrite Hc, He.
  destruct arrivals as [|b rest]; simpl.
  - apply IH. constructor.
  - inversion Harr as [|? ? Hb Hrest]; subst.
    rewrite (handle_batch_unrecognized cd b Hb). apply IH, Hrest.
Qed.

(** C7 (amended): once the first batch of requests with a recognized
    parameter is handled while the loop sleeps and it contains a request
    carrying [code], the next poll returns a code: the code of the LAST such
    request of that batch, whatever [error] requests came with it, because
    each request overwrites the shared dict and the code is checked before
    the error. *)
Theorem wait_for_callback_returns_last_code pre batch post polls c :
  Forall (fun b => Forall (fun q => unrecognized q = true) b) pre ->
  Forall wf_query batch ->
  last_code batch = Some c ->
  length pre + 2 <= polls ->
  fst (wait_for_callback polls empty_data (app pre (batch :: post))) = WCode c.
Proof.
  intros Hpre Hwf Hlast Hpolls.
  replace polls with (length pre + S (S (polls - length pre - 2))) by lia.
  rewrite wait_for_callback_skip by (reflexivity || exact Hpre).
  cbn [wait_for_callback].
  rewrite handle_batch_code. unfold last_code in Hlast. cbn [authorization_code empty_data].
  rewrite Hlast, opt_truthy_some.
  - reflexivity.
  - apply (last_code_from_nonblank None batch c); [intros ? Hn; discriminate Hn | exact Hwf | exact Hlast].
Qed.

Lemma wait_for_callback_returns_last_code_witness :
  fst (wait_for_callback 4 empty_data
         (app [[q_other]] ([q_error "denied"; q_code "A"; q_code "B"] :: [])))
    = WCode "B".
Proof.
  apply (wait_for_callback_returns_last_code [[q_other]]
           [q_error "denied"; q_code "A"; q_code "B"] [] 4 "B").
  - repeat constructor.
  - unfold wf_query. repeat constructor; simpl; discriminate.
  - reflexivity.
  - simpl. lia.
Defined.

(** C7 (counterexample): the first recognized request does not win. Two
    code requests in one sleep return the second code; an error request
    followed by a code request returns the code while the error stays set,
    so both [code] and [error] end up set. *)
Lemma wait_for_callback_first_wins_counterexample :
  fst (wait_for_callback 5 empty_data [[q_code "A"; q_code "B"]]) = WCode "B" /\
  wait_for_callback 5 empty_data [[q_error "denied"; q_code "A"]] =
    (WCode "A", {| authorization_code := Some "A"; cb_state := None;
                   error := Some "denied" |}).
Proof. split; reflexivity. Qed.

(** C8 (amended): when the first batch with a recognized request carries
    [error] requests and no [code] request, [callback_handler] fails with a
    plain [Exception] whose message is ["OAuth error: "] followed by the
    error of the last such request; no code is returned. *)
Theorem callback_handler_error_fails pre batch post polls l e :
  data l = empty_data ->
  Forall (fun b => Forall (fun q => unrecognized q = true) b) pre ->
  Forall wf_query batch ->
  Forall (fun q => assoc "code" q = None) batch ->
  last_error batch = Some e ->
  length pre + 2 <= polls ->
  fst (callback_handler polls l (app pre (batch :: post))) =
    inr (OAuthException ("OAuth error: " ++ e)).
Proof.
  intros Hl Hpre Hwf Hnocode Hlast Hpolls. unfold callback_handler. rewrite Hl.
  replace polls with (length pre + S (S (polls - length pre - 2))) by lia.
  rewrite wait_for_callback_skip by (reflexivity || exact Hpre).
  cbn [wait_for_callback].
  rewrite handle_batch_code, handle_batch_error.
  cbn [authorization_code error empty_data].
  rewrite last_code_from_no_code by exact Hnocode.
  unfold last_error in Hlast. rewrite Hlast, opt_truthy_some.
  - reflexivity.
  - apply (last_error_from_nonblank None batch e); [intros ? Hn; discriminate Hn | exact Hwf | exact Hlast].
Qed.

Lemma callback_handler_error_fails_witness :
  fst (callback_handler 3 started (app [] ([q_error "access_denied"] :: [])))
    = inr (OAuthException "OAuth error: access_denied").
Proof.
  apply (callback_handler_error_fails [] [q_error "access_denied"] [] 3 started
           "access_denied").
  - reflexivity.
  - constructor.
  - unfold wf_query. repeat constructor; simpl; discriminate.
  - repeat constructor.
  - reflexivity.
  - simpl. lia.
Defined.

(** C8 (counterexample): a callback request carrying [error] does not make
    the flow fail when it also carries [code] (the [elif] never records the
    error), nor when a code request follows it in the same sleep: both
    flows return the code. *)
Lemma callback_handler_error_counterexample :
  fst (callback_handler 5 started [[q_code_error "A" "denied"]]) = inl ("A", None) /\
  fst (callback_handler 5 started [[q_error "denied"; q_code "A"]]) = inl ("A", None).
Proof. split; reflexivity. Qed.

(** C9 (the code): when no callback with [code] or [error] arrives before
    the deadline, [callback_handler] raises [TimeoutError] and returns the
    listener unchanged: [stop()] is skipped, so a listener that was running
    keeps running. On the code path it is stopped. *)
Theorem callback_handler_timeout_skips_stop polls l arrivals :
  opt_truthy (authorization_code (data l)) = false ->
  opt_truthy (error (data l)) = false ->
  Forall (fun b => Forall (fun q => unrecognized q = true) b) arrivals ->
  callback_handler polls l arrivals =
    (inr (TimeoutError "Timeout waiting for OAuth callback"), l).
Proof.
  intros Hc He Harr. unfold callback_handler.
  rewrite (wait_for_callback_idle polls (data l) arrivals Hc He Harr).
  destruct l. reflexivity.
Qed.

Lemma callback_handler_timeout_skips_stop_witness :
  callback_handler 3 started [[q_other]] =
    (inr (TimeoutError "Timeout waiting for OAuth callback"), started) /\
  running started = true.
Proof.
  split; [|reflexivity].
  apply callback_handler_timeout_skips_stop.
  - reflexivity.
  - reflexivity.
  - repeat constructor.
Defined.

(** * Further properties of the code *)

Import Startup Authorize Tools Provider ExtraFixtures Form.

(** ** The requests [verify_token] makes *)

(** [verify_token] makes at most two requests, in this order: the
    introspection POST (with the token and the verifier's client
    credentials), then the userinfo GET with the token as bearer. The
    userinfo GET only happens after introspection answered 200 with a JSON
    object whose [active] is truthy and, in strict mode, whose audience
    passed [_validate_resource]. *)
Theorem verify_token_requests lib v net token :
  snd (run_verify lib v net token) = [] \/
  snd (run_verify lib v net token) =
    [Post (introspection_endpoint v) (introspection_form v token)] \/
  (snd (run_verify lib v net token) =
     [Post (introspection_endpoint v) (introspection_form v token);
      Get (userinfo_endpoint v) ("Bearer " ++ token)] /\
   exists r kvs,
     on_post net (introspection_endpoint v) (introspection_form v token) = Some r /\
     status_code r = 200%Z /\ body_json r = Some (JObj kvs) /\
     truthy (match assoc "active" kvs with Some a => a | None => JBool false end) = true /\
     (validate_resource v = true -> validate_resource_fn lib v (JObj kvs) = Ok true)).
Proof.
  rewrite run_verify_unfold.
  destruct (negb (truthy (client_id v)) || negb (truthy (client_secret v))); [left; reflexivity|].
  destruct (negb (startswith_any (introspection_endpoint v) safe_prefixes)); [left; reflexivity|].
  destruct (introspect lib v net token []) as [res tr] eqn:E.
  apply introspect_trace in E.
  assert (Htr : snd (match (res, tr) with
                     | (Ok r, tr) => (Ok r, tr)
                     | (Exc _, tr) => (Ok (@None access_token), tr)
                     end) = tr) by (destruct res; reflexivity).
  rewrite Htr. right. exact E.
Qed.

Lemma introspect_reaches_userinfo lib v net token tr0 r kvs :
  on_post net (introspection_endpoint v) (introspection_form v token) = Some r ->
  status_code r = 200%Z -> body_json r = Some (JObj kvs) ->
  truthy (match assoc "active" kvs with Some a => a | None => JBool false end) = true ->
  (validate_resource v = true -> validate_resource_fn lib v (JObj kvs) = Ok true) ->
  snd (introspect lib v net token tr0) =
    app tr0 [Post (introspection_endpoint v) (introspection_form v token);
             Get (userinfo_endpoint v) ("Bearer " ++ token)].
Proof.
  intros Hp Hs Hb Ha Hv.
  destruct (introspect lib v net token tr0) as [res tr] eqn:E.
  pose proof E as E'. apply introspect_trace in E' as [->|[-> _]]; [|reflexivity].
  exfalso. revert E.
  unfold introspect, bind, ret, lift, throw, http_post, http_get, resp_json.
  rewrite Hp, Hs, Z.eqb_refl, Hb. cbn [negb py_get].
  assert (Ea : match assoc "active" kvs with Some v0 => Ok v0 | None => Ok (JBool false) end
               = Ok (match assoc "active" kvs with Some a => a | None => JBool false end))
    by (destruct (assoc "active" kvs); reflexivity).
  rewrite Ea, Ha. cbn [negb].
  destruct (validate_resource v) eqn:Ev; [rewrite (Hv eq_refl)|]; cbn [negb].
  all: intro H; crunch H; apply (f_equal (fun p => length (snd p))) in H;
       cbn [snd] in H; rewrite !length_app in H; cbn [length] in H; lia.
Qed.

(** The userinfo request carries no endpoint check: once introspection
    accepts the token, [verify_token] sends the token as bearer to the
    configured [userinfo_endpoint], whatever its scheme and host (the
    [https]/localhost prefix test only looks at the introspection
    endpoint). *)
Theorem verify_token_sends_bearer_to_userinfo lib v net token r kvs :
  credentials_set v = true ->
  startswith_any (introspection_endpoint v) safe_prefixes = true ->
  on_post net (introspection_endpoint v) (introspection_form v token) = Some r ->
  status_code r = 200%Z -> body_json r = Some (JObj kvs) ->
  truthy (match assoc "active" kvs with Some a => a | None => JBool false end) = true ->
  (validate_resource v = true -> validate_resource_fn lib v (JObj kvs) = Ok true) ->
  snd (run_verify lib v net token) =
    [Post (introspection_endpoint v) (introspection_form v token);
     Get (userinfo_endpoint v) ("Bearer " ++ token)].
Proof.
  unfold credentials_set. intros Hc Hsafe Hp Hs Hb Ha Hv.
  rewrite run_verify_unfold. apply andb_true_iff in Hc as [-> ->].
  rewrite Hsafe. cbn [negb orb].
  pose proof (introspect_reaches_userinfo lib v net token [] r kvs Hp Hs Hb Ha Hv) as H.
  destruct (introspect lib v net token []) as [[res|e] tr]; exact H.
Qed.

Lemma verify_token_sends_bearer_to_userinfo_witness :
  Url.http_to_loopback (userinfo_endpoint v_remote_userinfo) = false /\
  snd (run_verify lib_eq v_remote_userinfo (net_answering introspection_full) "tok") =
    [Post "http://localhost:8083/oauth/introspect"
       (introspection_form v_remote_userinfo "tok");
     Get "http://attacker.example/userinfo" "Bearer tok"].
Proof.
  split; [reflexivity|].
  apply (verify_token_sends_bearer_to_userinfo lib_eq v_remote_userinfo
           (net_answering introspection_full) "tok" answer_full full_kvs).
  all: try reflexivity.
Defined.

(** The field values [verify_token] hands to [AccessTokenWithClaims]. *)
Lemma run_verify_some_record lib v net token t tr :
  run_verify lib v net token = (Ok (Some t), tr) ->
  exists r kvs sc ui claims,
    on_post net (introspection_endpoint v) (introspection_form v token) = Some r /\
    body_json r = Some (JObj kvs) /\
    assoc "scope" kvs = Some (JStr sc) /\
    on_get net (userinfo_endpoint v) ("Bearer " ++ token) = Some ui /\
    body_json ui = Some claims /\
    t = {| tok_token := token;
           tok_client_id := match assoc "client_id" kvs with Some c => c | None => client_id v end;
           tok_scopes := split_on " " sc;
           tok_expires_at := match assoc "exp" kvs with Some e => e | None => JNull end;
           tok_resource := match assoc "aud" kvs with Some a => a | None => JNull end;
           tok_claims := claims |}.
Proof.
  rewrite run_verify_unfold.
  destruct (negb (truthy (client_id v)) || negb (truthy (client_secret v)));
    [intro H; discriminate H|].
  destruct (negb (startswith_any (introspection_endpoint v) safe_prefixes));
    [intro H; discriminate H|].
  destruct (introspect lib v net token []) as [[res|e] tr'] eqn:E; intro H; [|discriminate H].
  injection H as -> <-. revert E.
  unfold introspect, bind, ret, lift, throw, http_post, http_get, resp_json.
  destruct (on_post net _ _) as [r|] eqn:Ep; [|intro H; discriminate H].
  destruct (negb (Z.eqb (status_code r) 200)); [intro H; discriminate H|].
  destruct (body_json r) as [data|] eqn:Eb; [|intro H; discriminate H].
  destruct data as [| | | | | kvs]; cbn [py_get]; try (intro H; discriminate H).
  intro H. crunch H.
  all: injection H as <- _;
       match goal with
       | Hs : py_split_space ?x = Ok _ |- _ =>
           destruct x as [| | | sc | |]; cbn [py_split_space] in Hs; try discriminate Hs;
           injection Hs as <-
       end;
       match goal with
       | Hu : on_get _ _ _ = Some ?ui, Hc : body_json ?ui = Some ?cl |- _ =>
           exists r, kvs, sc, ui, cl
       end;
       repeat split; try assumption;
       repeat match goal with Ha : assoc _ _ = _ |- _ => rewrite Ha; clear Ha end;
       reflexivity.
Qed.

(** What a verified token holds, in the fields the token model keeps as
    given ([token], [client_id] and [scopes] are strings, [claims] a
    dict): the token itself; the introspection response's [client_id], or
    the verifier's own when the response has none; the response's [scope]
    split at single spaces; and the JSON the userinfo endpoint answered. *)
Theorem verify_token_result_fields lib v net token t tr :
  run_verify lib v net token = (Ok (Some t), tr) ->
  exists r kvs sc ui claims,
    on_post net (introspection_endpoint v) (introspection_form v token) = Some r /\
    body_json r = Some (JObj kvs) /\
    assoc "scope" kvs = Some (JStr sc) /\
    on_get net (userinfo_endpoint v) ("Bearer " ++ token) = Some ui /\
    body_json ui = Some claims /\
    tok_token t = token /\
    tok_client_id t = match assoc "client_id" kvs with Some c => c | None => client_id v end /\
    tok_scopes t = split_on " " sc /\
    tok_claims t = claims.
Proof.
  intro H. apply run_verify_some_record in H
    as (r & kvs & sc & ui & claims & Hp & Hb & Hs & Hu & Hc & ->).
  exists r, kvs, sc, ui, claims. repeat split; assumption.
Qed.

Lemma verify_token_result_fields_witness :
  exists t tr,
    run_verify lib_eq v_strict (net_answering introspection_full) "tok" = (Ok (Some t), tr) /\
    exists r kvs sc ui claims,
      on_post (net_answering introspection_full) (introspection_endpoint v_strict)
        (introspection_form v_strict "tok") = Some r /\
      body_json r = Some (JObj kvs) /\
      assoc "scope" kvs = Some (JStr sc) /\
      on_get (net_answering introspection_full) (userinfo_endpoint v_strict)
        ("Bearer " ++ "tok") = Some ui /\
      body_json ui = Some claims /\
      tok_token t = "tok" /\
      tok_client_id t = match assoc "client_id" kvs with
                        | Some c => c | None => client_id v_strict end /\
      tok_scopes t = split_on " " sc /\
      tok_claims t = claims.
Proof.
  eexists. eexists. split; [reflexivity|].
  eapply (verify_token_result_fields lib_eq v_strict (net_answering introspection_full) "tok").
  reflexivity.
Defined.

(** ** Registration, persistence and reloading *)

(** After a successful [/register], a restart's [load_client_credentials]
    reads back from the credentials file exactly the [client_id] and
    [client_secret] the route put into the running verifier: the file keeps
    the secret, which the route only removes from its response. *)
Theorem register_client_then_load_credentials am up req st body st1 v0 :
  register_client am up req st = (Ok (JSONResp 200 body), st1) ->
  load_client_credentials (cred_file st1) v0 =
    Ok (with_credentials v0 (client_id (verifier_of st1)) (client_secret (verifier_of st1))).
Proof.
  intro H. apply register_client_success in H as (kvs & cid & csec & Hf & Hci & Hcs & Hv & _).
  rewrite Hf, Hv. unfold load_client_credentials, set_client_credentials. cbn [py_get].
  rewrite Hci, Hcs. reflexivity.
Qed.

Lemma register_client_then_load_credentials_witness :
  let r := register_client am_url upstream_ok (Some client_metadata) st_fresh in
  fst r = Ok (JSONResp 200 (JObj [("client_id", JStr "client-1"); ("client_name", JStr "cli")])) /\
  load_client_credentials (cred_file (snd r)) unregistered =
    Ok (with_credentials unregistered (client_id (verifier_of (snd r)))
          (client_secret (verifier_of (snd r)))) /\
  client_secret (verifier_of (snd r)) = JStr "secret-1".
Proof.
  split; [reflexivity|]. split; [|reflexivity].
  apply (register_client_then_load_credentials am_url upstream_ok (Some client_metadata)
           st_fresh (JObj [("client_id", JStr "client-1"); ("client_name", JStr "cli")])).
  reflexivity.
Defined.

(** A successful [/register] answer is the credential record with
    [client_id] and without [client_secret]. *)
Theorem register_client_response_hides_secret am up req st body st1 :
  register_client am up req st = (Ok (JSONResp 200 body), st1) ->
  exists kvs, body = JObj kvs /\ has_key "client_secret" kvs = false /\
              has_key "client_id" kvs = true.
Proof.
  intro H. apply register_client_success in H as (kvs & cid & csec & _ & Hci & _ & _ & ->).
  exists (remove_key "client_secret" kvs). split; [reflexivity|].
  split; [apply has_key_remove_key|].
  unfold has_key. rewrite assoc_remove_key_other by discriminate. rewrite Hci. reflexivity.
Qed.

Lemma register_client_response_hides_secret_witness :
  fst (register_client am_url upstream_ok (Some client_metadata) st_fresh) =
    Ok (JSONResp 200 (JObj [("client_id", JStr "client-1"); ("client_name", JStr "cli")])) /\
  exists kvs, JObj [("client_id", JStr "client-1"); ("client_name", JStr "cli")] = JObj kvs /\
    has_key "client_secret" kvs = false /\ has_key "client_id" kvs = true.
Proof.
  split; [reflexivity|].
  apply (register_client_response_hides_secret am_url upstream_ok (Some client_metadata)
           st_fresh _ (snd (register_client am_url upstream_ok (Some client_metadata) st_fresh))).
  reflexivity.
Defined.

(** When no credentials are stored and the authorization server answers
    the registration with a non-2xx status, [/register] answers 400 and
    changes nothing: the credentials file and the verifier's credentials
    stay as they were; the one upstream call is the only effect. *)
Theorem register_client_rejected_changes_nothing am up meta st r :
  truthy (match cred_file st with Some j => j | None => JObj [] end) = false ->
  on_register up meta = Some r ->
  (status_code r < 200 \/ 300 <= status_code r)%Z ->
  register_client am up (Some meta) st =
    (Ok (ErrorResp 400 HTTPStatusError),
     {| cred_file := cred_file st; verifier_of := verifier_of st;
        upstream_log := app (upstream_log st) [RegisterPost (am ++ "/oidc/register") meta] |}).
Proof.
  intros Hf Hr Hs.
  assert (Hrs : raise_for_status r = Exc HTTPStatusError).
  { unfold raise_for_status.
    destruct Hs as [Hs|Hs].
    - replace (200 <=? status_code r)%Z with false by lia. reflexivity.
    - replace (status_code r <? 300)%Z with false by lia.
      rewrite andb_false_r. reflexivity. }
  unfold register_client, try_catch, bind, ret, lift, load_credentials, post_register, log_call.
  cbn -[truthy raise_for_status]. rewrite Hf. cbn -[raise_for_status].
  rewrite Hr. cbn -[raise_for_status]. rewrite Hrs. reflexivity.
Qed.

Lemma register_client_rejected_changes_nothing_witness :
  register_client am_url upstream_rejecting (Some client_metadata) st_fresh =
    (Ok (ErrorResp 400 HTTPStatusError),
     {| cred_file := None; verifier_of := unregistered;
        upstream_log := [RegisterPost "http://localhost:8083/oidc/register" client_metadata] |}).
Proof.
  apply (register_client_rejected_changes_nothing am_url upstream_rejecting client_metadata
           st_fresh {| status_code := 400;
                       body_json := Some (JObj [("error", JStr "invalid_client_metadata")]) |}).
  - reflexivity.
  - reflexivity.
  - right. cbn. lia.
Defined.

(** A non-empty credentials record without [client_id] blocks [/register]
    for good: the route reads it, raises [KeyError] on
    [data["client_id"]] and answers 400, without calling the authorization
    server and without changing the file or the verifier, so no later
    request can replace it. *)
Theorem register_client_stuck_without_client_id am up req st kvs :
  cred_file st = Some (JObj kvs) -> kvs <> [] -> assoc "client_id" kvs = None ->
  register_client am up req st = (Ok (ErrorResp 400 KeyError), st).
Proof.
  intros Hf Hne Hci.
  unfold register_client, try_catch, bind, ret, lift, load_credentials.
  rewrite Hf. destruct kvs as [|kv rest]; [contradiction|].
  cbn [truthy negb py_getitem]. rewrite Hci. reflexivity.
Qed.

(** The first registration against a server answering without
    [client_id] saves that record and fails; afterwards even a server that
    answers properly is never asked. *)
Lemma register_client_stuck_without_client_id_witness :
  let st1 := snd (register_client am_url upstream_no_client_id (Some client_metadata) st_fresh) in
  fst (register_client am_url upstream_no_client_id (Some client_metadata) st_fresh) =
    Ok (ErrorResp 400 KeyError) /\
  cred_file st1 = Some (JObj [("client_name", JStr "cli")]) /\
  register_client am_url upstream_ok (Some client_metadata) st1 =
    (Ok (ErrorResp 400 KeyError), st1).
Proof.
  split; [reflexivity|]. split; [reflexivity|].
  apply (register_client_stuck_without_client_id am_url upstream_ok (Some client_metadata)
           (snd (register_client am_url upstream_no_client_id (Some client_metadata) st_fresh))
           [("client_name", JStr "cli")]).
  - reflexivity.
  - discriminate.
  - reflexivity.
Defined.

(** A credentials file whose record has no [client_secret] (a public
    client) loads [client_secret = None]; from then on every [verify_token]
    raises [ValueError] before any request. *)
Theorem load_credentials_without_secret_disables_verification kvs v :
  assoc "client_secret" kvs = None ->
  exists v', load_client_credentials (Some (JObj kvs)) v = Ok v' /\
    client_secret v' = JNull /\
    forall lib net token, run_verify lib v' net token = (Exc ValueError, []).
Proof.
  intro Hs. unfold load_client_credentials, set_client_credentials. cbn [py_get].
  rewrite Hs. destruct (assoc "client_id" kvs).
  all: eexists; split; [reflexivity|]; split; [reflexivity|].
  all: intros lib net token; rewrite run_verify_unfold;
    cbn [client_secret with_credentials truthy negb]; rewrite orb_true_r; reflexivity.
Qed.

Lemma load_credentials_without_secret_disables_verification_witness :
  assoc "client_secret" public_kvs = None /\
  exists v', load_client_credentials (Some (JObj public_kvs)) v_strict = Ok v' /\
    client_secret v' = JNull /\
    forall lib net token, run_verify lib v' net token = (Exc ValueError, []).
Proof.
  split; [reflexivity|].
  apply (load_credentials_without_secret_disables_verification public_kvs v_strict).
  reflexivity.
Defined.

(** ** The token proxy's form handling *)

Lemma assoc_dict_set_gen k k' w d :
  assoc k (dict_set k' w d) = if String.eqb k k' then Some w else assoc k d.
Proof.
  induction d as [|[k0 v0] rest IH]; cbn [dict_set assoc].
  - destruct (String.eqb k k'); reflexivity.
  - destruct (String.eqb k' k0) eqn:E0; cbn [assoc].
    + apply String.eqb_eq in E0. subst k0. destruct (String.eqb k k'); reflexivity.
    + rewrite IH. destruct (String.eqb k k0) eqn:E1; [|reflexivity].
      apply String.eqb_eq in E1. subst k0. rewrite String.eqb_sym, E0. reflexivity.
Qed.

Lemma split_on_cons_shape c s : exists p ps, split_on c s = p :: ps.
Proof.
  induction s as [|x r [p [ps IH]]]; cbn [split_on].
  - eauto.
  - rewrite IH. destruct (Ascii.eqb x c); eauto.
Qed.

Lemma split_on_app c s1 s2 :
  split_on c (s1 ++ String c s2) = app (split_on c s1) (split_on c s2).
Proof.
  induction s1 as [|x r IH]; cbn [split_on append].
  - rewrite Ascii.eqb_refl. reflexivity.
  - rewrite IH. destruct (Ascii.eqb x c); [reflexivity|].
    destruct (split_on_cons_shape c r) as [p [ps E]]. rewrite E. reflexivity.
Qed.

Lemma parse_form_fold b : parse_form b = fold_left form_step (split_on "&" b) [].
Proof. reflexivity. Qed.

Lemma assoc_form_step k d item :
  assoc k (form_step d item) =
    match assoc k (form_step [] item) with Some x => Some x | None => assoc k d end.
Proof.
  unfold form_step. destruct (contains_eq item); [|reflexivity].
  destruct (split_first_eq item) as [k' v]. rewrite !assoc_dict_set_gen.
  destruct (String.eqb k k'); reflexivity.
Qed.

Lemma assoc_fold_form_step k l d :
  assoc k (fold_left form_step l d) =
    match assoc k (fold_left form_step l []) with Some x => Some x | None => assoc k d end.
Proof.
  revert d. induction l as [|item l IH]; intro d; cbn [fold_left].
  - reflexivity.
  - rewrite (IH (form_step d item)), (IH (form_step [] item)), assoc_form_step.
    destruct (assoc k (fold_left form_step l [])); reflexivity.
Qed.

(** When a field occurs on both sides of an ["&"], the proxy's
    [form_dict] holds the value of its last occurrence: a parsed
    [b1 & b2] reads a key from [b2] if [b2] has it, else from [b1]. *)
Theorem parse_form_last_occurrence_wins k b1 b2 :
  assoc k (parse_form (b1 ++ String "&" b2)) =
    match assoc k (parse_form b2) with Some x => Some x | None => assoc k (parse_form b1) end.
Proof.
  rewrite !parse_form_fold, split_on_app, fold_left_app, assoc_fold_form_step.
  reflexivity.
Qed.

(** The proxy forwards every field but [client_secret] exactly as the
    request's form had it (the value of the field's last occurrence, or
    absent). *)
Theorem proxy_form_keeps_other_fields v b k :
  k <> "client_secret" -> assoc k (proxy_form v b) = assoc k (parse_form b).
Proof.
  intro Hk. unfold proxy_form.
  destruct (form_value_eq (assoc "client_id" (parse_form b)) (client_id v)).
  - rewrite assoc_dict_set_gen. apply String.eqb_neq in Hk. rewrite Hk. reflexivity.
  - apply assoc_remove_key_other. exact Hk.
Qed.

Lemma proxy_form_keeps_other_fields_witness :
  "code" <> "client_secret" /\
  assoc "code" (proxy_form v_strict "code=abc&client_id=client-1&code=xyz") = Some (JStr "xyz").
Proof.
  split; [discriminate|].
  rewrite (proxy_form_keeps_other_fields v_strict "code=abc&client_id=client-1&code=xyz" "code").
  - reflexivity.
  - discriminate.
Defined.

Lemma has_char_cons c x r : has_char c (String x r) = Ascii.eqb c x || has_char c r.
Proof. reflexivity. Qed.

Lemma has_char_app c s1 s2 : has_char c (s1 ++ s2) = has_char c s1 || has_char c s2.
Proof.
  induction s1 as [|x r IH]; [reflexivity|].
  cbn [append]. rewrite !has_char_cons, IH. apply orb_assoc.
Qed.

Lemma split_on_no_sep c s : has_char c s = false -> split_on c s = [s].
Proof.
  induction s as [|x r IH]; intro H; [reflexivity|].
  rewrite has_char_cons in H. apply orb_false_iff in H as [Hx Hr].
  cbn [split_on]. rewrite IH by exact Hr. rewrite Ascii.eqb_sym, Hx. reflexivity.
Qed.

Lemma split_on_concat c (l : list string) :
  l <> [] -> Forall (fun s => has_char c s = false) l ->
  split_on c (String.concat (String c EmptyString) l) = l.
Proof.
  induction l as [|x l IH]; intros Hne Hf; [contradiction|].
  inversion Hf as [|? ? Hx Hl]; subst.
  destruct l as [|y l].
  - cbn. apply split_on_no_sep. exact Hx.
  - change (String.concat (String c EmptyString) (x :: y :: l))
      with (x ++ String c (String.concat (String c EmptyString) (y :: l))).
    rewrite split_on_app, IH by (discriminate || exact Hl).
    rewrite split_on_no_sep by exact Hx. reflexivity.
Qed.

Lemma contains_eq_has_char s : contains_eq s = has_char "=" s.
Proof. reflexivity. Qed.

Lemma split_first_eq_app k v :
  has_char "=" k = false -> split_first_eq (k ++ String "=" v) = (k, v).
Proof.
  induction k as [|x r IH]; intro H; cbn [append split_first_eq].
  - reflexivity.
  - rewrite has_char_cons in H. apply orb_false_iff in H as [Hx Hr].
    rewrite Ascii.eqb_sym, Hx, IH by exact Hr. reflexivity.
Qed.

Lemma dict_set_fresh k w d : assoc k d = None -> dict_set k w d = app d [(k, w)].
Proof.
  induction d as [|[k0 v0] rest IH]; intro H; [reflexivity|].
  cbn [assoc] in H. cbn [dict_set]. destruct (String.eqb k k0); [discriminate H|].
  rewrite IH by exact H. reflexivity.
Qed.

Lemma assoc_app_none {V} k (l1 l2 : list (string * V)) :
  assoc k l1 = None -> assoc k (app l1 l2) = assoc k l2.
Proof.
  induction l1 as [|[k0 v0] r IH]; intro H; [reflexivity|].
  cbn [assoc app] in *. destruct (String.eqb k k0); [discriminate H | exact (IH H)].
Qed.

Lemma fold_form_step_fresh (d : list (string * string)) acc :
  NoDup (map fst d) ->
  Forall (fun kv => has_char "=" (fst kv) = false) d ->
  (forall kv, In kv d -> assoc (fst kv) acc = None) ->
  fold_left form_step (map (fun kv => fst kv ++ "=" ++ snd kv) d) acc =
    app acc (map (fun kv => (fst kv, JStr (snd kv))) d).
Proof.
  revert acc. induction d as [|[k v] d IH]; intros acc Hnd Hf Hfresh; cbn [map fold_left].
  - rewrite app_nil_r. reflexivity.
  - inversion Hnd as [|? ? Hk Hnd']; subst. inversion Hf as [|? ? Hkf Hf']; subst.
    cbn [fst snd] in *.
    unfold form_step at 2. rewrite contains_eq_has_char, has_char_app.
    change ("=" ++ v) with (String "=" v). rewrite has_char_cons, Ascii.eqb_refl.
    rewrite orb_true_l, orb_true_r, split_first_eq_app by exact Hkf.
    rewrite dict_set_fresh by exact (Hfresh (k, v) (or_introl eq_refl)).
    rewrite IH; [rewrite <- List.app_assoc; reflexivity | exact Hnd' | exact Hf' |].
    intros [k' v'] Hin. cbn [fst].
    rewrite assoc_app_none by exact (Hfresh (k', v') (or_intror Hin)).
    cbn [assoc]. destruct (String.eqb k' k) eqn:E; [|reflexivity].
    apply String.eqb_eq in E. subst k'. exfalso. apply Hk.
    apply (in_map fst _ (k, v') Hin).
Qed.

(** A form body whose keys are distinct and contain neither ["="] nor
    ["&"], and whose values contain no ["&"], is parsed by the proxy into
    exactly its fields, in order; a value may itself contain ["="]. *)
Theorem parse_form_form_body (d : list (string * string)) :
  NoDup (map fst d) ->
  Forall (fun kv => has_char "=" (fst kv) = false /\ has_char "&" (fst kv) = false /\
                    has_char "&" (snd kv) = false) d ->
  parse_form (form_body d) = map (fun kv => (fst kv, JStr (snd kv))) d.
Proof.
  intros Hnd Hf. destruct d as [|kv d]; [reflexivity|].
  rewrite parse_form_fold. unfold form_body.
  rewrite split_on_concat.
  - apply (fold_form_step_fresh (kv :: d) []); [exact Hnd| |intros; reflexivity].
    eapply Forall_impl; [|exact Hf]. intros a [H _]. exact H.
  - discriminate.
  - apply Forall_map. eapply Forall_impl; [|exact Hf].
    intros [k v] (_ & Hk & Hv). cbn [fst snd] in *.
    change ("=" ++ v) with (String "=" v). rewrite has_char_app, has_char_cons, Hk, Hv.
    reflexivity.
Qed.

Lemma parse_form_form_body_witness :
  parse_form "grant_type=authorization_code&code=a=b&client_id=client-1" =
    [("grant_type", JStr "authorization_code"); ("code", JStr "a=b");
     ("client_id", JStr "client-1")].
Proof.
  apply (parse_form_form_body
           [("grant_type", "authorization_code"); ("code", "a=b"); ("client_id", "client-1")]).
  - repeat (constructor; [cbn; intuition discriminate|]). constructor.
  - repeat constructor.
Defined.

(** ** The [/authorize] redirect's query string *)

Lemma is_one_of_has_char cs c : Url.is_one_of cs c = has_char c cs.
Proof. reflexivity. Qed.

Lemma hex_val_hex_digit k : k < 16 -> hex_val (hex_digit k) = Some k.
Proof. intro H. do 16 (destruct k as [|k]; [reflexivity|]). lia. Qed.

Lemma hex_digit_is_hex k : has_char (hex_digit k) hex_digits = true.
Proof. do 16 (destruct k as [|k]; [reflexivity|]). reflexivity. Qed.

Lemma unquote_pct c rest : unquote (pct c ++ rest) = String c (unquote rest).
Proof.
  pose proof (Ascii.nat_ascii_bounded c) as Hb.
  pose proof (Nat.div_mod_eq (nat_of_ascii c) 16) as Hd.
  pose proof (Nat.mod_upper_bound (nat_of_ascii c) 16 ltac:(lia)) as Hm.
  unfold pct. cbn [append unquote]. rewrite Ascii.eqb_refl.
  rewrite !hex_val_hex_digit by lia.
  f_equal. rewrite <- (Ascii.ascii_nat_embedding c) at 3. f_equal. lia.
Qed.

Lemma unquote_keep c rest :
  Ascii.eqb c "%" = false -> unquote (String c rest) = String c (unquote rest).
Proof. intro H. cbn [unquote]. rewrite H. reflexivity. Qed.

(** [unquote] undoes [quote] when ['%'] is not declared safe. *)
Lemma unquote_quote safe s : has_char "%" safe = false -> unquote (quote safe s) = s.
Proof.
  intro Hs. induction s as [|c r IH]; [reflexivity|].
  cbn [quote]. destruct (always_safe c || Url.is_one_of safe c) eqn:E.
  - cbn [append]. rewrite unquote_keep, IH; [reflexivity|].
    destruct (Ascii.eqb c "%") eqn:Ec; [|reflexivity].
    apply Ascii.eqb_eq in Ec. subst c. rewrite is_one_of_has_char, Hs in E. discriminate E.
  - rewrite unquote_pct, IH. reflexivity.
Qed.

(** A character that is not always safe, not in [safe], not ['%'] and not
    a hex digit never occurs in [quote safe s]. *)
Lemma quote_no_char x safe s :
  always_safe x = false -> has_char x safe = false -> Ascii.eqb x "%" = false ->
  has_char x hex_digits = false ->
  has_char x (quote safe s) = false.
Proof.
  intros Ha Hs Hp Hh. induction s as [|c r IH]; [reflexivity|].
  cbn [quote]. rewrite has_char_app, IH, orb_false_r.
  destruct (always_safe c || Url.is_one_of safe c) eqn:E.
  - rewrite has_char_cons, orb_false_r. destruct (Ascii.eqb x c) eqn:Ex; [|reflexivity].
    apply Ascii.eqb_eq in Ex. subst c. rewrite Ha, is_one_of_has_char, Hs in E. discriminate E.
  - unfold pct. rewrite !has_char_cons, Hp. cbn [orb].
    assert (Hd : forall k, Ascii.eqb x (hex_digit k) = false).
    { intro k. destruct (Ascii.eqb x (hex_digit k)) eqn:Ek; [|reflexivity].
      apply Ascii.eqb_eq in Ek. rewrite Ek, hex_digit_is_hex in Hh. discriminate Hh. }
    rewrite !Hd. reflexivity.
Qed.

Lemma replace_char_no_char x a b s :
  has_char x s = false -> Ascii.eqb x b = false -> has_char x (replace_char a b s) = false.
Proof.
  intros Hs Hb. induction s as [|c r IH]; [reflexivity|].
  rewrite has_char_cons in Hs. apply orb_false_iff in Hs as [Hc Hr].
  cbn [replace_char]. rewrite has_char_cons, IH by exact Hr.
  destruct (Ascii.eqb c a); rewrite orb_false_r; assumption.
Qed.

Lemma replace_char_id a b s : has_char a s = false -> replace_char a b s = s.
Proof.
  intro H. induction s as [|c r IH]; [reflexivity|].
  rewrite has_char_cons in H. apply orb_false_iff in H as [Hc Hr].
  cbn [replace_char]. rewrite Ascii.eqb_sym, Hc, IH by exact Hr. reflexivity.
Qed.

Lemma replace_char_back s :
  has_char "+" s = false -> replace_char "+" " " (replace_char " " "+" s) = s.
Proof.
  intro H. induction s as [|c r IH]; [reflexivity|].
  rewrite has_char_cons in H. apply orb_false_iff in H as [Hc Hr].
  cbn [replace_char]. rewrite IH by exact Hr.
  destruct (Ascii.eqb c " ") eqn:E.
  - apply Ascii.eqb_eq in E. subst c. reflexivity.
  - rewrite Ascii.eqb_sym, Hc. reflexivity.
Qed.

Lemma unquote_plus_quote_plus s : unquote_plus (quote_plus s) = s.
Proof.
  unfold unquote_plus, quote_plus. destruct (Url.is_one_of s " ").
  - rewrite replace_char_back by (apply quote_no_char; reflexivity).
    apply unquote_quote. reflexivity.
  - rewrite replace_char_id by (apply quote_no_char; reflexivity).
    apply unquote_quote. reflexivity.
Qed.

(** ['&'] and ['='] never occur in what [quote_plus] produces. *)
Lemma quote_plus_no_char x s :
  Ascii.eqb x "&" || Ascii.eqb x "=" = true -> has_char x (quote_plus s) = false.
Proof.
  intro Hx. unfold quote_plus.
  assert (Hq : forall safe, safe = " " \/ safe = "" -> has_char x (quote safe s) = false).
  { intros safe Hs. apply orb_true_iff in Hx as [E|E]; apply Ascii.eqb_eq in E; subst x;
      destruct Hs as [->| ->]; apply quote_no_char; reflexivity. }
  destruct (Url.is_one_of s " ").
  - apply replace_char_no_char; [apply Hq; left; reflexivity|].
    apply orb_true_iff in Hx as [E|E]; apply Ascii.eqb_eq in E; subst x; reflexivity.
  - apply Hq. right. reflexivity.
Qed.

Lemma parse_qsl_items (params : list (string * string)) :
  map (fun item => let (k, v) := split_first_eq item in (unquote_plus k, unquote_plus v))
    (filter (fun item => negb (String.eqb item ""))
       (map (fun kv => quote_plus (fst kv) ++ "=" ++ quote_plus (snd kv)) params)) = params.
Proof.
  induction params as [|[k v] params IH]; [reflexivity|].
  cbn [map filter fst snd].
  assert (Hne : String.eqb (quote_plus k ++ "=" ++ quote_plus v) "" = false).
  { destruct (quote_plus k); reflexivity. }
  rewrite Hne. cbn [negb map]. rewrite IH.
  change ("=" ++ quote_plus v) with (String "=" (quote_plus v)).
  rewrite split_first_eq_app by (apply quote_plus_no_char; reflexivity).
  rewrite !unquote_plus_quote_plus. reflexivity.
Qed.

Lemma parse_qsl_urlencode params : parse_qsl (urlencode params) = params.
Proof.
  unfold parse_qsl, urlencode. destruct params as [|kv params]; [reflexivity|].
  rewrite split_on_concat.
  - apply parse_qsl_items.
  - discriminate.
  - apply Forall_forall. intros item Hin. apply in_map_iff in Hin as [[k v] [<- _]].
    cbn [fst snd]. change ("=" ++ quote_plus v) with (String "=" (quote_plus v)).
    rewrite has_char_app, has_char_cons, !quote_plus_no_char by reflexivity. reflexivity.
Qed.

Lemma assoc_set_item k k' w d :
  assoc k (set_item k' w d) = if String.eqb k k' then Some w else assoc k d.
Proof.
  induction d as [|[k0 v0] d IH]; cbn.
  - destruct (String.eqb k k'); reflexivity.
  - destruct (String.eqb k' k0) eqn:E1.
    + apply String.eqb_eq in E1. subst k0. cbn.
      destruct (String.eqb k k'); reflexivity.
    + cbn. destruct (String.eqb k k0) eqn:E2.
      * apply String.eqb_eq in E2. subst k0.
        destruct (String.eqb k k') eqn:E3; [|reflexivity].
        apply String.eqb_eq in E3. subst k'. rewrite String.eqb_refl in E1. discriminate.
      * exact IH.
Qed.

Lemma assoc_query_dict_fold k items d acc :
  assoc k d = acc ->
  assoc k (fold_left (fun d kv => set_item (fst kv) (snd kv) d) items d) =
  fold_left (fun acc kv => if String.eqb k (fst kv) then Some (snd kv) else acc)
    items acc.
Proof.
  revert d acc. induction items as [|[k1 v1] items IH]; intros d acc H; cbn.
  - exact H.
  - apply IH. rewrite assoc_set_item, H. reflexivity.
Qed.

Lemma in_keys_set_item x k w d :
  In x (map fst (set_item k w d)) -> x = k \/ In x (map fst d).
Proof.
  induction d as [|[k0 v0] d IH]; cbn.
  - intros [H|[]]. left. symmetry. exact H.
  - destruct (String.eqb k k0); cbn.
    + intros [H|H]; right; [left|right]; exact H.
    + intros [H|H]; [right; left; exact H|].
      destruct (IH H) as [H'|H']; [left; exact H'|right; right; exact H'].
Qed.

Lemma nodup_keys_set_item k w d :
  NoDup (map fst d) -> NoDup (map fst (set_item k w d)).
Proof.
  induction d as [|[k0 v0] d IH]; cbn; intros Hnd.
  - constructor; [intros []|constructor].
  - inversion Hnd as [|? ? Hnin Hnd']; subst.
    destruct (String.eqb k k0) eqn:E; cbn.
    + exact Hnd.
    + constructor; [|exact (IH Hnd')].
      intros Hin. destruct (in_keys_set_item _ _ _ _ Hin) as [Heq|Hin'].
      * subst k0. rewrite String.eqb_refl in E. discriminate.
      * exact (Hnin Hin').
Qed.

Lemma nodup_keys_query_dict_fold items d :
  NoDup (map fst d) ->
  NoDup (map fst (fold_left (fun d kv => set_item (fst kv) (snd kv) d) items d)).
Proof.
  revert d. induction items as [|kv items IH]; intros d H; cbn.
  - exact H.
  - apply IH, nodup_keys_set_item, H.
Qed.

(** [?a=1&b=2&a=3] reaches the authorization server as [a=3&b=2]. *)
Example authorize_request_repeated_key :
  authorize_request "https://am" [("a", "1"); ("b", "2"); ("a", "3")] =
  "https://am/oauth/authorize?a=3&b=2".
Proof. vm_compute. reflexivity. Qed.

(** The redirect of [/authorize] hands the authorization server the
    parameters of [dict(request.query_params)]: parsing its [urlencode]d
    query back (as [parse_qsl] with blank values kept does) gives exactly
    that dict, whatever characters keys and values hold; it has one entry
    per distinct name of the request's query, and each name carries the
    last value the request gave it. *)
Theorem authorize_query_round_trip am items :
  exists q, authorize_request am items = am ++ "/oauth/authorize?" ++ q /\
    parse_qsl q = query_dict items /\
    NoDup (map fst (parse_qsl q)) /\
    forall k, assoc k (parse_qsl q) = last_value k items.
Proof.
  exists (urlencode (query_dict items)). split; [reflexivity|].
  rewrite parse_qsl_urlencode. split; [reflexivity|]. split.
  - apply nodup_keys_query_dict_fold. constructor.
  - intros k. apply assoc_query_dict_fold. reflexivity.
Qed.

(** ** The tools' access check *)

Lemma prefix_app_iff n h : String.prefix n h = true <-> exists post, h = n ++ post.
Proof.
  revert h. induction n as [|a n IH]; intro h.
  - split; [intros _; exists h; reflexivity | destruct h; reflexivity].
  - destruct h as [|b h]; simpl.
    + split; [discriminate|]. intros [post Hp]. discriminate Hp.
    + destruct (ascii_dec a b) as [<-|Hab].
      * rewrite IH. split; intros [post Hp]; exists post;
          [rewrite Hp; reflexivity | injection Hp as Hp; exact Hp].
      * split; [discriminate|]. intros [post Hp]. injection Hp as Hp _. congruence.
Qed.

Lemma str_contains_iff n h : str_contains n h = true <-> exists pre post, h = pre ++ n ++ post.
Proof.
  induction h as [|c h IH]; cbn [str_contains].
  - rewrite orb_false_r, prefix_app_iff. split.
    + intros [post Hp]. exists "", post. exact Hp.
    + intros [pre [post Hp]]. destruct pre as [|x pre]; [exists post; exact Hp | discriminate Hp].
  - rewrite orb_true_iff, prefix_app_iff, IH. split.
    + intros [[post Hp] | [pre [post Hp]]].
      * exists "", post. exact Hp.
      * exists (String c pre), post. rewrite Hp. reflexivity.
    + intros [pre [post Hp]]. destruct pre as [|x pre].
      * left. exists post. exact Hp.
      * right. injection Hp as _ Hp. exists pre, post. exact Hp.
Qed.

(** For a string [email] claim, [get_time], [search_locations] and
    [get_weather_forecast] run exactly when ["graviteesource.com"] occurs
    anywhere in it: the test is a substring test, not a check of the
    address's domain. *)
Theorem email_allowed_substring kvs e :
  assoc "email" kvs = Some (JStr e) ->
  (email_allowed (JObj kvs) = Ok true <->
   exists pre post, e = pre ++ "graviteesource.com" ++ post).
Proof.
  intro He. unfold email_allowed. cbn [py_getitem]. rewrite He. cbn [py_in].
  rewrite <- str_contains_iff. split; [intro H; injection H as H; exact H | intros ->; reflexivity].
Qed.

Lemma email_allowed_substring_witness :
  email_allowed (JObj [("email", JStr "eve@graviteesource.com.evil.example")]) = Ok true.
Proof.
  apply (email_allowed_substring [("email", JStr "eve@graviteesource.com.evil.example")]
           "eve@graviteesource.com.evil.example").
  - reflexivity.
  - exists "eve@", ".evil.example". reflexivity.
Defined.

(** ** The server URL the client's OAuth provider is given *)

Lemma append_empty_r s : s ++ "" = s.
Proof. induction s as [|c s IH]; [reflexivity|]. cbn [append]. rewrite IH. reflexivity. Qed.

Lemma replace_mcp_keep c r :
  Ascii.eqb c "/" && String.prefix "mcp" r = false ->
  replace_mcp (String c r) = String c (replace_mcp r).
Proof.
  intro H. destruct r as [|c2 [|c3 [|c4 r4]]]; try reflexivity.
  cbn [replace_mcp]. destruct (Ascii.eqb c "/") eqn:E1; [|reflexivity].
  destruct (Ascii.eqb c2 "m") eqn:E2; [|reflexivity].
  destruct (Ascii.eqb c3 "c") eqn:E3; [|reflexivity].
  destruct (Ascii.eqb c4 "p") eqn:E4; [|reflexivity].
  apply Ascii.eqb_eq in E2, E3, E4. subst c2 c3 c4. cbn in H.
  destruct r4; discriminate H.
Qed.

Lemma replace_mcp_no_slash_app s r :
  has_char "/" s = false -> replace_mcp (s ++ r) = s ++ replace_mcp r.
Proof.
  induction s as [|c s IH]; intro H; [reflexivity|].
  rewrite has_char_cons in H. apply orb_false_iff in H as [Hc Hs].
  cbn [append]. rewrite replace_mcp_keep, IH by (exact Hs || (rewrite Ascii.eqb_sym, Hc; reflexivity)).
  reflexivity.
Qed.

(** With the client's settings, [create_oauth_provider] gives the OAuth
    provider the server's root [http://localhost:{port}] for the
    [streamable_http] transport, while for any other transport the URL
    keeps its [/sse] path: [replace("/mcp", "")] only strips the path of
    the first transport. *)
Theorem provider_server_url_of_client_settings transport_type port :
  has_char "/" port = false ->
  provider_server_url (client_server_url transport_type port) =
    if String.eqb transport_type "streamable_http" then "http://localhost:" ++ port
    else "http://localhost:" ++ port ++ "/sse".
Proof.
  intro Hp. unfold provider_server_url, client_server_url.
  destruct (String.eqb transport_type "streamable_http"); cbn [append];
    repeat (rewrite replace_mcp_keep by reflexivity);
    rewrite replace_mcp_no_slash_app by exact Hp.
  - change (replace_mcp "/mcp") with "". rewrite append_empty_r. reflexivity.
  - repeat (rewrite replace_mcp_keep by reflexivity). reflexivity.
Qed.

Lemma provider_server_url_of_client_settings_witness :
  provider_server_url (client_server_url "sse" "8001") = "http://localhost:8001/sse" /\
  provider_server_url (client_server_url "streamable_http" "8001") = "http://localhost:8001".
Proof.
  split.
  - exact (provider_server_url_of_client_settings "sse" "8001" eq_refl).
  - exact (provider_server_url_of_client_settings "streamable_http" "8001" eq_refl).
Defined.

(** ** What the routes change and which upstream calls they make *)

(** [/token] never touches the credentials file or the verifier: its one
    effect is a single POST of the rewritten form to [/oauth/token] when
    the body decodes, and none otherwise. *)
Theorem token_proxy_effects am up body st :
  let st' := snd (token_proxy am up body st) in
  cred_file st' = cred_file st /\ verifier_of st' = verifier_of st /\
  upstream_log st' =
    app (upstream_log st)
      (match body with
       | Some b => [TokenPost (am ++ "/oauth/token") (proxy_form (verifier_of st) b)]
       | None => []
       end).
Proof.
  cbv zeta. destruct body as [b|]; [|cbn; rewrite app_nil_r; auto].
  unfold token_proxy, log_call.
  destruct (on_token up (proxy_form (verifier_of st) b)) as [r|]; [|cbn; auto].
  destruct (raise_for_status r); [destruct (body_json r)|]; cbn; auto.
Qed.

(** [/register] calls the authorization server at most once, and only
    when the credentials file holds no (truthy) record and the request
    body is JSON; the call registers that body. *)
Theorem register_client_upstream_calls am up req st :
  upstream_log (snd (register_client am up req st)) =
    app (upstream_log st)
      (if truthy (match cred_file st with Some j => j | None => JObj [] end) then []
       else match req with
            | Some meta => [RegisterPost (am ++ "/oidc/register") meta]
            | None => []
            end).
Proof.
  unfold register_client, try_catch, bind, ret, lift, throw, load_credentials,
    post_register, log_call, save_credentials, set_verifier_client_id,
    set_verifier_client_secret.
  cbn -[truthy].
  destruct (truthy (match cred_file st with Some j => j | None => JObj [] end)); cbn -[truthy].
  - destruct (py_getitem _ "client_id"); cbn; [|apply eq_sym, app_nil_r].
    destruct (py_getitem _ "client_secret"); cbn; [|apply eq_sym, app_nil_r].
    destruct (py_del _ "client_secret"); cbn; apply eq_sym, app_nil_r.
  - destruct req as [meta|]; cbn; [|apply eq_sym, app_nil_r].
    destruct (on_register up meta) as [r|]; cbn; [|reflexivity].
    destruct (raise_for_status r); cbn; [|reflexivity].
    destruct (resp_json r) as [j|]; cbn; [|reflexivity].
    destruct (py_del j "registration_access_token") as [j1|]; cbn; [|reflexivity].
    destruct (py_del j1 "registration_client_uri") as [j2|]; cbn; [|reflexivity].
    destruct (py_getitem j2 "client_id"); cbn; [|reflexivity].
    destruct (py_getitem j2 "client_secret"); cbn; [|reflexivity].
    destruct (py_del j2 "client_secret"); reflexivity.
Qed.

(** ** Strict validation without a configured resource *)

(** With strict resource validation and an empty [server_url] or
    [resource_url], [_validate_resource] is [False] for every token, so
    [verify_token] never returns a token. *)
Theorem strict_without_resource_rejects_every_token lib v net token :
  validate_resource v = true ->
  (String.eqb (server_url v) "" || String.eqb (resource_url v) "") = true ->
  forall t, fst (run_verify lib v net token) <> Ok (Some t).
Proof.
  intros Hs He t. rewrite run_verify_unfold.
  destruct (negb (truthy (client_id v)) || negb (truthy (client_secret v))); [discriminate|].
  destruct (negb (startswith_any (introspection_endpoint v) safe_prefixes)); [discriminate|].
  destruct (introspect lib v net token []) as [[o|e] tr] eqn:E; cbn [fst]; [|discriminate].
  destruct o as [t'|]; [|discriminate].
  apply introspect_some_inv in E as (r & kvs & _ & _ & _ & _ & Hv & _).
  specialize (Hv Hs). unfold validate_resource_fn in Hv. rewrite He in Hv. discriminate Hv.
Qed.

Lemma strict_without_resource_rejects_every_token_witness :
  fst (run_verify lib_eq v_strict (net_answering introspection_full) "tok") <> Ok None /\
  forall t, fst (run_verify lib_eq v_no_server_url (net_answering introspection_full) "tok")
              <> Ok (Some t).
Proof.
  split; [discriminate|].
  apply (strict_without_resource_rejects_every_token lib_eq v_no_server_url
           (net_answering introspection_full) "tok"); reflexivity.
Defined.

(** ** The characters of the [/authorize] query *)

Lemma forallb_string_app p s1 s2 :
  forallb p (list_ascii_of_string (s1 ++ s2)) =
    forallb p (list_ascii_of_string s1) && forallb p (list_ascii_of_string s2).
Proof.
  induction s1 as [|c s1 IH]; [reflexivity|].
  cbn [append list_ascii_of_string forallb]. rewrite IH. apply andb_assoc.
Qed.

Lemma forallb_weaken (p q : ascii -> bool) l :
  (forall c, p c = true -> q c = true) -> forallb p l = true -> forallb q l = true.
Proof.
  intros Hpq H. rewrite forallb_forall in *. intros c Hc. apply Hpq, H, Hc.
Qed.

Lemma always_safe_hex_digit k : always_safe (hex_digit k) = true.
Proof. do 16 (destruct k as [|k]; [reflexivity|]). reflexivity. Qed.

Lemma quote_chars safe s :
  forallb (fun c => always_safe c || Url.is_one_of safe c || Ascii.eqb c "%")
    (list_ascii_of_string (quote safe s)) = true.
Proof.
  induction s as [|c r IH]; [reflexivity|].
  cbn [quote]. rewrite forallb_string_app, IH, andb_true_r.
  destruct (always_safe c || Url.is_one_of safe c) eqn:E.
  - cbn [list_ascii_of_string forallb]. rewrite E. reflexivity.
  - unfold pct. cbn [list_ascii_of_string forallb].
    rewrite !always_safe_hex_digit, Ascii.eqb_refl, !orb_true_r. reflexivity.
Qed.

Lemma replace_space_chars (p : ascii -> bool) s :
  p "+"%char = true ->
  forallb (fun c => p c || Ascii.eqb c " ") (list_ascii_of_string s) = true ->
  forallb p (list_ascii_of_string (replace_char " " "+" s)) = true.
Proof.
  intros Hp. induction s as [|c r IH]; intro H; [reflexivity|].
  cbn [list_ascii_of_string forallb replace_char] in *.
  apply andb_true_iff in H as [Hc Hr]. rewrite IH by exact Hr.
  destruct (Ascii.eqb c " ") eqn:E; [rewrite Hp; reflexivity|].
  rewrite orb_false_r in Hc. rewrite Hc. reflexivity.
Qed.

(** Settle [p c = true] from a hypothesis [H] naming which class [c]
    belongs to: always safe, or one of the listed characters. *)
Ltac char_class H :=
  cbn [Url.is_one_of list_ascii_of_string existsb] in H |- *;
  repeat (apply orb_true_iff in H as [H|H]);
  first [ discriminate H
        | rewrite H; reflexivity
        | apply Ascii.eqb_eq in H; subst; reflexivity ].

Lemma quote_plus_chars s :
  forallb (fun c => always_safe c || Url.is_one_of "%+" c)
    (list_ascii_of_string (quote_plus s)) = true.
Proof.
  unfold quote_plus. destruct (Url.is_one_of s " ").
  - apply replace_space_chars; [reflexivity|].
    eapply forallb_weaken; [|apply (quote_chars " " s)].
    intros c Hc. char_class Hc.
  - eapply forallb_weaken; [|apply (quote_chars "" s)].
    intros c Hc. char_class Hc.
Qed.

(** The query string of the [/authorize] redirect consists of unreserved
    characters and ['%'], ['+'], ['&'], ['=']: no parameter can put a
    ['#'], ['?'], ['/'], a space or any other character raw into the
    location it redirects to. *)
Theorem urlencode_chars params :
  forallb (fun c => always_safe c || Url.is_one_of "%+&=" c)
    (list_ascii_of_string (urlencode params)) = true.
Proof.
  assert (Hw : forall s, forallb (fun c => always_safe c || Url.is_one_of "%+" c)
                 (list_ascii_of_string s) = true ->
               forallb (fun c => always_safe c || Url.is_one_of "%+&=" c)
                 (list_ascii_of_string s) = true).
  { intros s. apply forallb_weaken. intros c Hc. char_class Hc. }
  unfold urlencode. induction params as [|[k v] params IH]; [reflexivity|].
  cbn [map fst snd].
  assert (Hkv : forallb (fun c => always_safe c || Url.is_one_of "%+&=" c)
                  (list_ascii_of_string (quote_plus k ++ "=" ++ quote_plus v)) = true).
  { rewrite !forallb_string_app, (Hw (quote_plus k)), (Hw (quote_plus v))
      by apply quote_plus_chars.
    reflexivity. }
  destruct params as [|kv params]; [exact Hkv|].
  change (String.concat "&" (?x :: ?y)) with (x ++ "&" ++ String.concat "&" y).
  rewrite (forallb_string_app _ (quote_plus k ++ "=" ++ quote_plus v)), Hkv,
    (forallb_string_app _ "&"), IH.
  reflexivity.
Qed.

(** ** The location search's query parameter *)

Lemma string_length_app s1 s2 : String.length (s1 ++ s2) = String.length s1 + String.length s2.
Proof. induction s1 as [|c s1 IH]; cbn; [reflexivity | rewrite IH; reflexivity]. Qed.

Lemma quote_length safe s : String.length s <= String.length (quote safe s).
Proof.
  induction s as [|c r IH]; cbn [quote]; [reflexivity|].
  rewrite string_length_app.
  destruct (always_safe c || Url.is_one_of safe c); cbn; lia.
Qed.

Lemma quote_id_iff safe s :
  quote safe s = s <->
  forallb (fun c => always_safe c || Url.is_one_of safe c) (list_ascii_of_string s) = true.
Proof.
  induction s as [|c r IH]; [split; reflexivity|].
  cbn [quote list_ascii_of_string forallb].
  destruct (always_safe c || Url.is_one_of safe c) eqn:E; cbn [append andb].
  - rewrite <- IH. split; [intro H; injection H as H; exact H | intros ->; reflexivity].
  - split; [|discriminate]. intro H. exfalso.
    apply (f_equal String.length) in H. rewrite string_length_app in H. cbn in H.
    pose proof (quote_length safe r). lia.
Qed.

(** [search_locations] quotes the query before [requests] encodes it
    again, so the location API decodes [quote(query)], not the query: the
    two agree exactly when every character of the query is unreserved or
    ['/']; a space, for instance, reaches the API as the three characters
    [%20]. *)
Theorem search_locations_query_encoded_twice query :
  parse_qsl (urlencode (search_params query)) = [("q", quote "/" query); ("limit", "5")] /\
  (quote "/" query = query <->
   forallb (fun c => always_safe c || Url.is_one_of "/" c) (list_ascii_of_string query) = true).
Proof. split; [apply parse_qsl_urlencode | apply quote_id_iff]. Qed.
